(** * DataHaven end-to-end storage workflow: a shallow embedding

    The script under verification is a linear sequence of awaited calls into
    pre-built clients (chain RPC, StorageHub SDK, MSP backend HTTP client),
    two polling loops and a byte comparison.  Every [await] suspends the
    single thread of control until the promise settles, so an [async]
    function is embedded as a computation in a state-and-exception monad:

    - the [World] answers every external call (it may resolve or reject);
    - the [State] carries what the script itself owns or observes: the
      module-level [sessionToken] of [mspService.ts], the local files, the
      chronological trace of external interactions, and the console.

    All definitions are executable: given a concrete world they evaluate. *)

From Stdlib Require Import ZArith Lia.
From Stdlib Require Strings.Byte.
From stdpp Require Import base tactics option list strings gmap pretty.

Local Open Scope string_scope.
Local Open Scope list_scope.
Local Open Scope nat_scope.

(** ** JavaScript values that the control flow inspects *)

Abbreviation byte := Byte.byte.

(** The few dynamically typed values the code compares with [===]. *)
Inductive JsVal : Type :=
| JUndefined
| JNum (n : Z)
| JStr (s : string).

(** [a === b] on those values. *)
Definition strict_eq (a b : JsVal) : bool :=
  match a, b with
  | JUndefined, JUndefined => true
  | JNum x, JNum y => Z.eqb x y
  | JStr x, JStr y => String.eqb x y
  | _, _ => false
  end.

(** A thrown value.  [err_status] is [error?.status] and [err_body_error] is
    [error?.body?.error]; both are [undefined] on a plain [new Error(msg)]. *)
Record JsError : Type := mkJsError {
  err_message : string;
  err_status : JsVal;
  err_body_error : JsVal
}.

Definition new_Error (msg : string) : JsError :=
  {| err_message := msg; err_status := JUndefined; err_body_error := JUndefined |}.

(** A settled promise: resolved with a value or rejected with an error. *)
Inductive Outcome (A : Type) : Type :=
| Ok (a : A)
| Raise (e : JsError).
Arguments Ok {A} a.
Arguments Raise {A} e.

(** ** Records exchanged with the collaborators *)

(** A 32-byte hash as handled by @polkadot/types, kept as its hex rendering. *)
Record H256 : Type := mkH256 { toHex : string }.
Definition H256_toString (h : H256) : string := toHex h.

(** [InfoResponse] of the MSP backend: [multiaddresses] may be absent. *)
Record InfoResponse : Type := mkInfo {
  mspId : string;
  multiaddresses : option (list string)
}.

(** [HealthStatus], [UserInfo]: only passed around and logged. *)
Record HealthStatus : Type := mkHealth { health_status : string }.
Record UserInfo : Type := mkUserInfo { user_address : string }.
Record ValueProp : Type := mkValueProp { vp_id : string }.

(** The session returned by the SIWE sign-in. *)
Record Session : Type := mkSession { token : string }.

(** What [sessionProvider] hands to the MSP client. *)
Record Credentials : Type := mkCredentials {
  cred_token : string;
  cred_user_address : string
}.

Record TxReceipt : Type := mkTxReceipt { receipt_status : string }.
Record UploadReceipt : Type := mkUploadReceipt { upload_status : string }.

(** Backend view of a file: the status string and the rest of the metadata. *)
Record FileInfo : Type := mkFileInfo {
  fi_status : string;
  fi_metadata : string
}.

Record DownloadResult : Type := mkDownloadResult {
  dl_status : Z;
  dl_stream : list byte;
  dl_contentType : option string
}.

Record DownloadedFile : Type := mkDownloadedFile {
  df_path : string;
  df_size : Z;
  df_mime : option string
}.

(** [PalletFileSystemStorageRequestMetadata]: [sr_msp] is the optional pair
    (provider id, confirmation flag). *)
Record StorageRequestMetadata : Type := mkStorageRequest {
  sr_bucketId : string;
  sr_fingerprint : string;
  sr_msp : option (string * bool)
}.

Inductive ReplicationLevel : Type := Basic | Standard | HighSecurity | SuperHighSecurity | UltraHighSecurity | Custom.

(** ** External calls

    One constructor per awaited call into a collaborator, indexed by the type
    of the value the promise resolves with.  [bucketOperations.ts] is not part
    of the sources at hand: its three exported operations appear here as calls
    answered by the environment, exactly as [index.ts] sees them. *)
Inductive Request : Type -> Type :=
(* @storagehub-sdk/core *)
| InitWasm : Request unit
| FmGetFingerprint (filePath : string) : Request H256
| FmGetFileBlob (filePath : string) : Request (list byte)
| FmComputeFileKey (owner bucketId fileName : string) : Request H256
    (* [owner], [bucketId]: the strings the two codecs were created from *)
| IssueStorageRequest (bucketId fileName fingerprint : string) (size : Z)
    (msp : string) (peerIds : list string) (level : ReplicationLevel)
    (replicas : Z) : Request (option string)
(* viem public client and polkadot api *)
| WaitForTransactionReceipt (hash : string) : Request TxReceipt
| QueryStorageRequests (fileKey : string) : Request (option StorageRequestMetadata)
| Disconnect : Request unit
(* MSP backend client *)
| MspGetInfo : Request InfoResponse
| MspGetHealth : Request HealthStatus
| MspSIWE (domain uri : string) : Request Session
| MspGetProfile : Request UserInfo
| MspGetValuePropositions : Request (option (list ValueProp))
| MspUploadFile (bucketId fileKey : string) (blob : list byte)
    (owner fileName : string) : Request UploadReceipt
| MspGetFileInfo (bucketId fileKey : string) : Request FileInfo
| MspDownloadFile (fileKey : string) : Request DownloadResult
(* node:fs write stream fed by the download *)
| PipeToFile (path : string) (data : list byte) : Request unit
(* operations/bucketOperations.ts *)
| CreateBucket (name : string) : Request (string * TxReceipt)
| VerifyBucketCreation (bucketId : string) : Request string
| WaitForBackendBucketReady (bucketId : string) : Request unit.

(** Requests that travel through [mspClient], which was connected with
    [sessionProvider] and asks it for credentials on each request. *)
Definition via_mspClient {X} (r : Request X) : bool :=
  match r with
  | MspGetInfo | MspGetHealth | MspSIWE _ _ | MspGetProfile
  | MspGetValuePropositions | MspUploadFile _ _ _ _ _
  | MspGetFileInfo _ _ | MspDownloadFile _ => true
  | _ => false
  end.

(** ** The environment and the script's state *)

(** The environment: the configured account address, the decoder of
    @polkadot/types and, for the [n]-th external call of a run (counted from
    0), the way the call settles.

    [createType w ty value] is the way [registry.createType(ty, value)] ends
    on the string [value]: the decoder is synchronous and either returns the
    codec of type [ty] that [value] denotes or throws.  The library is not
    part of the sources at hand, so which strings it accepts is left to the
    environment; the codec is determined by [value], and a call that takes
    the codec is recorded with [value]. *)
Record World : Type := mkWorld {
  address : string;
  createType : string -> string -> Outcome unit;
  respond : forall X : Type, nat -> Request X -> Outcome X
}.
Arguments respond w {X} n r.

(** An entry of the interaction trace. *)
Inductive Action : Type :=
| ACall (creds : option Credentials) {X : Type} (r : Request X)
| ASleep (ms : Z).

(** One argument of a [console.log] call. *)
Inductive LogItem : Type :=
| LStr (s : string)
| LBool (b : bool)
| LObj (what : string).

(** The numbered steps of the orchestrator, and the marks it leaves. *)
Inductive Step : Type :=
| StepHealthCheck | StepCreateBucket | StepVerifyBucket | StepWaitBucket
| StepUpload | StepWaitMspConfirm | StepWaitFileReady | StepDownload
| StepVerify | StepDisconnect.

Inductive StepMark : Type :=
| Started (s : Step)
| Completed (s : Step).

(** What the script owns or leaves behind:
    - [sessionToken]: the module variable of [mspService.ts] ([None] is
      [undefined]);
    - [fs]: the content of the local files, by path;
    - [ncalls]: the number of external calls awaited so far;
    - [trace]: external calls and delays, oldest first;
    - [console]: the lines logged, oldest first;
    - [steps]: the marks of the orchestrator; nothing reads them, they only
      record which step started and which completed. *)
Record State : Type := mkState {
  sessionToken : option string;
  fs : gmap string (list byte);
  ncalls : nat;
  trace : list Action;
  console : list (list LogItem);
  steps : list StepMark
}.

(** ** The monad of awaited computations *)

Definition M (A : Type) : Type := World -> State -> Outcome A * State.

Global Instance M_ret : MRet M := fun A a _ st => (Ok a, st).
Global Instance M_bind : MBind M := fun A B f m w st =>
  match m w st with
  | (Ok a, st') => f a w st'
  | (Raise e, st') => (Raise e, st')
  end.

(** [throw e] *)
Definition throw {A} (e : JsError) : M A := fun _ st => (Raise e, st).

(** [try { body } catch (error) { handler error }] *)
Definition try_catch {A} (body : M A) (handler : JsError -> M A) : M A :=
  fun w st =>
    match body w st with
    | (Ok a, st') => (Ok a, st')
    | (Raise e, st') => handler e w st'
    end.

(** [sessionProvider]: credentials when a (truthy) token is held. *)
Definition truthy (s : string) : bool := negb (String.eqb s "").

Definition sessionProvider (w : World) (st : State) : option Credentials :=
  match sessionToken st with
  | Some t => if truthy t then Some (mkCredentials t (address w)) else None
  | None => None
  end.

Definition push_action (a : Action) (st : State) : State :=
  {| sessionToken := sessionToken st; fs := fs st; ncalls := ncalls st;
     trace := trace st ++ [a]; console := console st; steps := steps st |}.

Definition count_call (st : State) : State :=
  {| sessionToken := sessionToken st; fs := fs st; ncalls := S (ncalls st);
     trace := trace st; console := console st; steps := steps st |}.

(** [await] of an external call: recorded, then settled by the world. *)
Definition call {X} (r : Request X) : M X := fun w st =>
  let creds := if via_mspClient r then sessionProvider w st else None in
  (respond w (ncalls st) r, count_call (push_action (ACall creds r) st)).

(** [await new Promise((r) => setTimeout(r, ms))] *)
Definition sleep (ms : Z) : M unit := fun _ st => (Ok tt, push_action (ASleep ms) st).

(** [console.log(...)] *)
Definition log (items : list LogItem) : M unit := fun _ st =>
  (Ok tt,
   {| sessionToken := sessionToken st; fs := fs st; ncalls := ncalls st;
      trace := trace st; console := console st ++ [items]; steps := steps st |}).

Definition get_address : M string := fun w st => (Ok (address w), st).

(** [registry.createType(ty, value)]: returns, or throws what the decoder
    throws; nothing is awaited and nothing else changes. *)
Definition registry_createType (ty value : string) : M unit := fun w st =>
  (createType w ty value, st).

Definition set_sessionToken (t : string) : M unit := fun _ st =>
  (Ok tt,
   {| sessionToken := Some t; fs := fs st; ncalls := ncalls st;
      trace := trace st; console := console st; steps := steps st |}).

Definition mark (m : StepMark) : M unit := fun _ st =>
  (Ok tt,
   {| sessionToken := sessionToken st; fs := fs st; ncalls := ncalls st;
      trace := trace st; console := console st; steps := steps st ++ [m] |}).

(** [for (let i = i0; i < i0 + n; i++) { body }  after]: the body either
    leaves the function with a value ([Some]) or falls through ([None]). *)
Fixpoint for_upto {R} (n : nat) (i : nat) (body : nat -> M (option R)) (after : M R) : M R :=
  match n with
  | O => after
  | S n' =>
      r ← body i;
      match r with
      | Some v => mret v
      | None => for_upto n' (S i) body after
      end
  end.

(** ** Local files ([node:fs]) *)

Definition enoent (op path : string) : JsError :=
  new_Error ("ENOENT: no such file or directory, " +:+ op +:+ " '" +:+ path +:+ "'").

(** [statSync(path).size] and [fs.stat(path)] *)
Definition stat_size (path : string) : M Z := fun _ st =>
  match fs st !! path with
  | Some data => (Ok (Z.of_nat (length data)), st)
  | None => (Raise (enoent "stat" path), st)
  end.

(** [fs.readFile(path)] *)
Definition readFile (path : string) : M (list byte) := fun _ st =>
  match fs st !! path with
  | Some data => (Ok data, st)
  | None => (Raise (enoent "open" path), st)
  end.

Definition write_fs (path : string) (data : list byte) : M unit := fun _ st =>
  (Ok tt,
   {| sessionToken := sessionToken st; fs := <[path := data]> (fs st);
      ncalls := ncalls st; trace := trace st; console := console st;
      steps := steps st |}).

(** [readable.pipe(createWriteStream(path))], awaited through the two
    listeners of [downloadFile]: the write stream either emits ['error'] or
    finishes, leaving [data] in the file.  A failure of the read stream
    triggers neither listener: the promise then stays pending, and such a
    download has no outcome here. *)
Definition pipe_to_file (path : string) (data : list byte) : M unit :=
  call (PipeToFile path data);;
  write_fs path data.

(** [Buffer.prototype.equals]: same length and same bytes. *)
Fixpoint Buffer_equals (a b : list byte) : bool :=
  match a, b with
  | [], [] => true
  | x :: a', y :: b' => Byte.eqb x y && Buffer_equals a' b'
  | _, _ => false
  end.

(** ** services/mspService.ts *)

Definition getMspInfo : M InfoResponse :=
  mspInfo ← call MspGetInfo;
  log [LStr ("MSP ID: " +:+ mspId mspInfo)];;
  mret mspInfo.

Definition getMspHealth : M HealthStatus :=
  mspHealth ← call MspGetHealth;
  log [LStr "MSP Health: "; LObj "mspHealth"];;
  mret mspHealth.

Definition authenticateUser : M UserInfo :=
  let domain := "localhost" in
  let uri := "http://localhost" in
  log [LStr "Authenticating user with MSP via SIWE..."];;
  siweSession ← call (MspSIWE domain uri);
  log [LStr "SIWE Session:"; LObj "siweSession"];;
  set_sessionToken (token siweSession);;
  profile ← call MspGetProfile;
  mret profile.

Definition getValueProps : M string :=
  valueProps ← call MspGetValuePropositions;
  match valueProps with
  | None | Some [] => throw (new_Error "No value propositions available from MSP")
  | Some (vp :: _) =>
      let valuePropId := vp_id vp in
      log [LStr ("Chose Value Prop ID: " +:+ valuePropId)];;
      mret valuePropId
  end.

(** ** operations/fileOperations.ts *)

(** [s.split(sep)] for a non-empty separator: scan left to right, cut at
    each occurrence and resume after it.  [skip] counts the characters of a
    matched separator still to be passed over, [cur] is the current piece. *)
Fixpoint split_go (sep : string) (skip : nat) (cur : string) (s : string) : list string :=
  match s with
  | EmptyString => [cur]
  | String c s' =>
      match skip with
      | S k => split_go sep k cur s'
      | O =>
          if String.prefix sep s
          then cur :: split_go sep (Nat.pred (String.length sep)) "" s'
          else split_go sep O (cur +:+ String c "") s'
      end
  end.

Definition split (sep s : string) : list string := split_go sep O "" s.

(** [extractPeerIDs]: [arr.pop()] is the last element, [!!id] keeps the
    non-empty strings. *)
Definition extractPeerIDs (multiaddresses : option (list string)) : list string :=
  omap (fun addr =>
          match last (split "/p2p/" addr) with
          | Some id => if truthy id then Some id else None
          | None => None
          end)
       (default [] multiaddresses).

Definition uploadFile (bucketId filePath fileName : string) : M (H256 * UploadReceipt) :=
  (* issue storage request *)
  fileSize ← stat_size filePath;
  fingerprint ← call (FmGetFingerprint filePath);
  log [LStr ("Fingerprint: " +:+ toHex fingerprint)];;
  let fileSizeBigInt := fileSize in
  log [LStr ("File size: " +:+ pretty fileSize +:+ " bytes")];;
  info ← getMspInfo;
  let mspId := mspId info in
  let multiaddresses := multiaddresses info in
  if bool_decide (length (default [] multiaddresses) = 0)
  then throw (new_Error "MSP multiaddresses are missing")
  else
  let peerIds := extractPeerIDs multiaddresses in
  if bool_decide (length peerIds = 0)
  then throw (new_Error "MSP multiaddresses had no /p2p/<peerId> segment")
  else
  let replicationLevel := Custom in
  let replicas := 1%Z in
  txHash ← call (IssueStorageRequest bucketId fileName (toHex fingerprint)
                   fileSizeBigInt mspId peerIds replicationLevel replicas);
  log [LStr "issueStorageRequest() txHash:"; LObj "txHash"];;
  match txHash with
  | None => throw (new_Error "issueStorageRequest() did not return a transaction hash")
  | Some txHash =>
  if negb (truthy txHash)
  then throw (new_Error "issueStorageRequest() did not return a transaction hash")
  else
  receipt ← call (WaitForTransactionReceipt txHash);
  if negb (String.eqb (receipt_status receipt) "success")
  then throw (new_Error ("Storage request failed: " +:+ txHash))
  else
  (* verify storage request on chain *)
  account_address ← get_address;
  registry_createType "AccountId20" account_address;;
  let owner := account_address in
  registry_createType "H256" bucketId;;
  let bucketIdH256 := bucketId in
  fileKey ← call (FmComputeFileKey owner bucketIdH256 fileName);
  storageRequest ← call (QueryStorageRequests (toHex fileKey));
  match storageRequest with
  | None => throw (new_Error "Storage request not found on chain")
  | Some storageRequestData =>
  log [LStr "Storage request data:"; LObj "storageRequestData"];;
  log [LStr "Storage request bucketId matches initial bucketId:";
       LBool (String.eqb (sr_bucketId storageRequestData) bucketId)];;
  log [LStr "Storage request fingerprint matches initial fingerprint";
       LBool (String.eqb (sr_fingerprint storageRequestData) (H256_toString fingerprint))];;
  (* upload file to MSP *)
  authProfile ← authenticateUser;
  log [LStr "Authenticated user profile:"; LObj "authProfile"];;
  blob ← call (FmGetFileBlob filePath);
  addr ← get_address;
  uploadReceipt ← call (MspUploadFile bucketId (toHex fileKey) blob addr fileName);
  log [LStr "File upload receipt:"; LObj "uploadReceipt"];;
  if negb (String.eqb (upload_status uploadReceipt) "upload_successful")
  then throw (new_Error "File upload to MSP failed")
  else mret (fileKey, uploadReceipt)
  end
  end.

Definition downloadFile (fileKey : H256) (downloadPath : string) : M DownloadedFile :=
  downloadResponse ← call (MspDownloadFile (toHex fileKey));
  if negb (Z.eqb (dl_status downloadResponse) 200)
  then throw (new_Error ("Download failed with status: " +:+ pretty (dl_status downloadResponse)))
  else
  pipe_to_file downloadPath (dl_stream downloadResponse);;
  size ← stat_size downloadPath;
  let mime := dl_contentType downloadResponse in
  mret {| df_path := downloadPath; df_size := size; df_mime := mime |}.

Definition verifyDownload (originalPath downloadedPath : string) : M bool :=
  originalBuffer ← readFile originalPath;
  downloadedBuffer ← readFile downloadedPath;
  mret (Buffer_equals originalBuffer downloadedBuffer).

(** The double-quote character of the template strings. *)
Definition dquote : string := String (Ascii.ascii_of_nat 34) EmptyString.

Definition attempt_line (what : string) (i maxAttempts : nat) : list LogItem :=
  [LStr (what +:+ ", attempt " +:+ pretty (S i) +:+ " of " +:+ pretty maxAttempts +:+ "...")].

(** [data.msp.isSome ? data.msp.unwrap() : null], then
    [mspTuple ? mspTuple[1].isTrue : false]. *)
Definition mspConfirmed (data : StorageRequestMetadata) : bool :=
  let mspTuple := sr_msp data in
  match mspTuple with
  | Some t => snd t
  | None => false
  end.

Definition gone_error (fileKey : string) : JsError :=
  new_Error ("StorageRequest for " +:+ fileKey +:+ " no longer exists on-chain.").

Definition confirm_timeout (fileKey : string) (maxAttempts : nat) (delayMs : Z) : JsError :=
  new_Error ("FileKey " +:+ fileKey +:+ " not ready for download after waiting "
               +:+ pretty (Z.of_nat maxAttempts * delayMs)%Z +:+ " ms").

(** Body of the loop of [waitForMSPConfirmOnChain]; [Some tt] is its [return]. *)
Definition confirm_attempt (fileKey : string) (maxAttempts : nat) (delayMs : Z)
    (i : nat) : M (option unit) :=
  log (attempt_line "Check storage request has been confirmed by the MSP on-chain" i maxAttempts);;
  req ← call (QueryStorageRequests fileKey);
  match req with
  | None => throw (gone_error fileKey)
  | Some data =>
      if mspConfirmed data
      then log [LStr "Storage request confirmed by MSP on-chain"];; mret (Some tt)
      else sleep delayMs;; mret None
  end.

Definition waitForMSPConfirmOnChain (fileKey : string) : M unit :=
  let maxAttempts := 10 in
  let delayMs := 2000%Z in
  for_upto maxAttempts 0
    (confirm_attempt fileKey maxAttempts delayMs)
    (throw (confirm_timeout fileKey maxAttempts delayMs)).

(** [error?.status === 404 || error?.body?.error === 'Not found: Record'] *)
Definition is_not_found (error : JsError) : bool :=
  strict_eq (err_status error) (JNum 404)
  || strict_eq (err_body_error error) (JStr "Not found: Record").

Definition revoked_error : JsError := new_Error "File upload was cancelled by user".
Definition rejected_error : JsError := new_Error "File upload was rejected by MSP".
Definition expired_error : JsError :=
  new_Error "Storage request expired: the required number of BSP replicas was not achieved within the deadline".
Definition ready_timeout : JsError :=
  new_Error "Timed out waiting for MSP backend to mark file as ready".

(** Body of the loop of [waitForBackendFileReady]: the [try]/[catch] block,
    then the delay unless the block returned. *)
Definition ready_attempt (bucketId fileKey : string) (maxAttempts : nat) (delayMs : Z)
    (i : nat) : M (option FileInfo) :=
  log (attempt_line "Checking for file in MSP backend" i maxAttempts);;
  r ← try_catch
        (fileInfo ← call (MspGetFileInfo bucketId fileKey);
         if String.eqb (fi_status fileInfo) "ready"
         then log [LStr "File found in MSP backend:"; LObj "fileInfo"];;
              mret (Some fileInfo)
         else if String.eqb (fi_status fileInfo) "revoked"
         then throw revoked_error
         else if String.eqb (fi_status fileInfo) "rejected"
         then throw rejected_error
         else if String.eqb (fi_status fileInfo) "expired"
         then throw expired_error
         else log [LStr ("File status is " +:+ dquote +:+ fi_status fileInfo +:+ dquote +:+ ", waiting...")];;
              mret None)
        (fun error =>
           if is_not_found error
           then log [LStr "File not yet indexed in MSP backend (404 Not Found). Waiting before retry..."];;
                mret None
           else log [LStr "Unexpected error while fetching file from MSP:"; LObj "error"];;
                throw error);
  match r with
  | Some fileInfo => mret (Some fileInfo)
  | None => sleep delayMs;; mret None
  end.

Definition waitForBackendFileReady (bucketId fileKey : string) : M FileInfo :=
  let maxAttempts := 144 in
  let delayMs := 5000%Z in
  for_upto maxAttempts 0
    (ready_attempt bucketId fileKey maxAttempts delayMs)
    (throw ready_timeout).

(** ** index.ts *)

(** One numbered step of the script: the marks bracket the awaited call. *)
Definition step {A} (s : Step) (m : M A) : M A :=
  mark (Started s);;
  a ← m;
  mark (Completed s);;
  mret a.

(** [new URL(rel, import.meta.url).pathname], with the module directory as a
    parameter. *)
Definition module_path (moduleDir rel : string) : string := moduleDir +:+ rel.

Definition run (moduleDir : string) : M unit :=
  call InitWasm;;
  log [LStr "Starting DataHaven Storage End-to-End Script..."];;
  (* 1. Check MSP Health *)
  mspHealth ← step StepHealthCheck getMspHealth;
  log [LStr "MSP Health Status:"; LObj "mspHealth"];;
  (* 2. Create Bucket *)
  let bucketName := "bucket-datahaven-e2e" in
  created ← step StepCreateBucket (call (CreateBucket bucketName));
  let bucketId := fst created in
  log [LStr ("Created Bucket ID: " +:+ bucketId)];;
  log [LStr "createBucket() txReceipt: "; LObj "txReceipt"];;
  (* 3. Verify bucket exists on chain *)
  bucketData ← step StepVerifyBucket (call (VerifyBucketCreation bucketId));
  log [LStr "Bucket data:"; LObj "bucketData"];;
  (* 4. Wait until indexer/backend knows about the bucket *)
  step StepWaitBucket (call (WaitForBackendBucketReady bucketId));;
  (* 5. Upload file *)
  let fileName := "datahaven.png" in
  let filePath := module_path moduleDir ("files/" +:+ fileName) in
  uploaded ← step StepUpload (uploadFile bucketId filePath fileName);
  let fileKey := fst uploaded in
  let uploadReceipt := snd uploaded in
  log [LStr ("File uploaded: " +:+ H256_toString fileKey)];;
  log [LStr ("Status: " +:+ upload_status uploadReceipt)];;
  (* 6. Wait for file to be ready in the network before downloading *)
  step StepWaitMspConfirm (waitForMSPConfirmOnChain (toHex fileKey));;
  step StepWaitFileReady (waitForBackendFileReady bucketId (toHex fileKey));;
  (* 7. Download file *)
  let downloadedFilePath := module_path moduleDir "files/datahaven_downloaded.png" in
  downloadedFile ← step StepDownload (downloadFile fileKey downloadedFilePath);
  log [LStr "File type: "; LObj "downloadedFile.mime"];;
  log [LStr ("Downloaded " +:+ pretty (df_size downloadedFile) +:+ " bytes to " +:+ df_path downloadedFile)];;
  (* 8. Verify download integrity *)
  isValid ← step StepVerify (verifyDownload filePath downloadedFilePath);
  log [LStr ("File integrity verified: " +:+ (if isValid : bool then "PASSED" else "FAILED"))];;
  log [LStr "DataHaven Storage End-to-End Script Completed Successfully."];;
  step StepDisconnect (call Disconnect).


(** * Vocabulary of the statements *)

(** [extends st st' k acts]: between [st] and [st'] exactly [k] external
    calls were made, the trace grew by [acts], and the session token, the
    files and the step marks are unchanged. *)
Definition extends (st st' : State) (k : nat) (acts : list Action) : Prop :=
  sessionToken st' = sessionToken st ∧ fs st' = fs st ∧
  ncalls st' = ncalls st + k ∧ trace st' = trace st ++ acts ∧
  steps st' = steps st.

(** [n] rounds of the same actions, e.g. a query followed by a delay. *)
Definition rounds (n : nat) (round : list Action) : list Action :=
  concat (replicate n round).

(** [continues body w n i st st']: from [st], the [n] iterations numbered
    [i], [i+1], ... of a loop body all fall through, ending in [st']. *)
Inductive continues {R : Type} (body : nat → M (option R)) (w : World) :
    nat → nat → State → State → Prop :=
| continues_O i st : continues body w 0 i st st
| continues_S n i st st1 st2 :
    body i w st = (Ok None, st1) →
    continues body w n (S i) st1 st2 →
    continues body w (S n) i st st2.

(** A backend status that is none of the four the loop reacts to. *)
Definition is_transient_status (s : string) : bool :=
  negb (String.eqb s "ready") && negb (String.eqb s "revoked")
  && negb (String.eqb s "rejected") && negb (String.eqb s "expired").

(** A settled [getFileInfo] after which polling goes on: a transient status,
    or a rejection that reads as not found. *)
Definition transient (o : Outcome FileInfo) : bool :=
  match o with
  | Ok fi => is_transient_status (fi_status fi)
  | Raise e => is_not_found e
  end.

(** A settled chain query showing a request not (yet) confirmed by the MSP. *)
Definition unconfirmed (o : Outcome (option StorageRequestMetadata)) : bool :=
  match o with
  | Ok (Some data) => negb (mspConfirmed data)
  | _ => false
  end.

(** [stable proj m]: running [m] never changes the component [proj] of the
    state, whatever the world answers. *)
Definition stable {A X} (proj : State → X) (m : M A) : Prop :=
  ∀ w st, proj (m w st).2 = proj st.

(** Weakest precondition: [Q] holds of the way [m] settles from [st]. *)
Definition wp {A} (m : M A) (w : World) (st : State)
    (Q : Outcome A → State → Prop) : Prop :=
  Q (m w st).1 (m w st).2.

(** The ten steps in the order the specification lists them. *)
Definition workflow : list Step :=
  [StepHealthCheck; StepCreateBucket; StepVerifyBucket; StepWaitBucket;
   StepUpload; StepWaitMspConfirm; StepWaitFileReady; StepDownload;
   StepVerify; StepDisconnect].

(** The marks left by steps that ran to completion, in order. *)
Definition marks (done : list Step) : list StepMark :=
  flat_map (λ s, [Started s; Completed s]) done.

(** * Concrete environments

    Small worlds and states on which the operations are evaluated. *)

Definition st0 : State :=
  {| sessionToken := None; fs := ∅; ncalls := 0; trace := []; console := []; steps := [] |}.

(** The decoder of the concrete environments.  It returns on the well-formed
    identifiers, [0x] followed by exactly two hexadecimal digits for each of
    the 20 bytes of an [AccountId20], of the 32 bytes of an [H256], and throws
    on every other string, among them the short ids ["0xA11CE"] and ["0xb1"]
    of the environments below, which are no account address and no hash. *)
Definition is_hex_digit (c : Ascii.ascii) : bool :=
  let n := Ascii.nat_of_ascii c in
  (48 <=? n) && (n <=? 57) || (65 <=? n) && (n <=? 70) || (97 <=? n) && (n <=? 102).

Fixpoint all_hex (s : string) : bool :=
  match s with
  | EmptyString => true
  | String c s' => is_hex_digit c && all_hex s'
  end.

Definition is_hex_bytes (n : nat) (s : string) : bool :=
  String.prefix "0x" s && (String.length s =? 2 + 2 * n)
  && all_hex (String.substring 2 (2 * n) s).

Definition hex_createType (ty value : string) : Outcome unit :=
  if String.eqb ty "AccountId20" && is_hex_bytes 20 value then Ok tt
  else if String.eqb ty "H256" && is_hex_bytes 32 value then Ok tt
  else Raise (new_Error ("createType(" +:+ ty +:+ "):: cannot decode " +:+ value)).

(** Well-formed identifiers: a 20-byte account address and 32-byte hashes. *)
Definition e2e_address : string := "0x70997970c51812dc3a010c7d01b50e0d17dc79c8".
Definition e2e_bucket : string := "0xa4c123b1612dd272d1371c17149d439536b3216fdaeeb975729fae923d5a4fd1".
Definition other_bucket : string := "0x2aabfe228f219e9cb0eb53f16947ccf25ec84d8dbc74254770f58904dba41ecc".
Definition e2e_fingerprint : string := "0xcc3fc1626e53a13043b026c48bbf33feff9243a8f506b40928b5b7a767c76fb0".
Definition other_fingerprint : string := "0x08f86bebb2737f6a6f0fb23c6f5da2cec255404e4fb440034d6608697a8d41be".
Definition e2e_file_key : string := "0xd440e50454f31af3176813e02ea68ef786e4d3cea27d26934b484e73cf575dca".
Definition e2e_tx : string := "0xd6ba2b0aee0ca923732881584d8c4fa2815d2802827283e0ad84173581569969".
Definition e2e_msp : string := "0xe58b081006f7e3dfc967a64cb14028d512c9791e558e08baa7196b50ac2f8670".

Definition unexpected {A} : Outcome A := Raise (new_Error "unexpected call").

Definition pending_info : FileInfo := mkFileInfo "pending" "".
Definition revoked_info : FileInfo := mkFileInfo "revoked" "".
Definition http_404 : JsError := mkJsError "Not Found" (JNum 404) JUndefined.
Definition http_500 : JsError := mkJsError "Internal Server Error" (JNum 500) JUndefined.

(** A backend that never gets past ["pending"]. *)
Definition w_pending : World :=
  {| address := "0xA11CE"; createType := hex_createType;
     respond X n r :=
       match r in Request X return Outcome X with
       | MspGetFileInfo _ _ => Ok pending_info
       | _ => unexpected
       end |}.

(** A backend that answers pending, then 404, then revoked. *)
Definition w_revoked : World :=
  {| address := "0xA11CE"; createType := hex_createType;
     respond X n r :=
       match r in Request X return Outcome X with
       | MspGetFileInfo _ _ =>
           match n with
           | 0 => Ok pending_info
           | 1 => Raise http_404
           | _ => Ok revoked_info
           end
       | _ => unexpected
       end |}.

(** A backend that answers 404, then fails with a server error. *)
Definition w_server_error : World :=
  {| address := "0xA11CE"; createType := hex_createType;
     respond X n r :=
       match r in Request X return Outcome X with
       | MspGetFileInfo _ _ =>
           match n with
           | 0 => Raise http_404
           | _ => Raise http_500
           end
       | _ => unexpected
       end |}.

Definition sr_unassigned : StorageRequestMetadata := mkStorageRequest "0xb1" "0xf1" None.
Definition sr_assigned : StorageRequestMetadata := mkStorageRequest "0xb1" "0xf1" (Some ("0xmsp", false)).
Definition sr_confirmed : StorageRequestMetadata := mkStorageRequest "0xb1" "0xf1" (Some ("0xmsp", true)).

(** A chain on which the request has no MSP, then an MSP, then its
    confirmation. *)
Definition w_chain : World :=
  {| address := "0xA11CE"; createType := hex_createType;
     respond X n r :=
       match r in Request X return Outcome X with
       | QueryStorageRequests _ =>
           match n with
           | 0 => Ok (Some sr_unassigned)
           | 1 => Ok (Some sr_assigned)
           | _ => Ok (Some sr_confirmed)
           end
       | _ => unexpected
       end |}.

Definition two_bytes : list byte := [Byte.x01; Byte.x02].

(** A state with an original and its downloaded copy. *)
Definition st_files : State :=
  {| sessionToken := None;
     fs := {[ "/files/datahaven.png" := two_bytes;
              "/files/datahaven_downloaded.png" := two_bytes ]};
     ncalls := 0; trace := []; console := []; steps := [] |}.

(** A world that answers every external call of [uploadFile]; the parameters
    are the addresses the MSP reports, the record found on chain, the token of
    the sign-in and the way [getProfile] settles.  Its account address is a
    short id, which [createType] does not decode. *)
Definition w_upload (addrs : option (list string))
    (record : option StorageRequestMetadata) (tok : string)
    (profile : Outcome UserInfo) : World :=
  {| address := "0xA11CE"; createType := hex_createType;
     respond X n r :=
       match r in Request X return Outcome X with
       | FmGetFingerprint _ => Ok (mkH256 "0xf1")
       | MspGetInfo => Ok (mkInfo "0xmsp" addrs)
       | IssueStorageRequest _ _ _ _ _ _ _ _ => Ok (Some "0x7a")
       | WaitForTransactionReceipt _ => Ok (mkTxReceipt "success")
       | FmComputeFileKey _ _ _ => Ok (mkH256 "0xfeed")
       | QueryStorageRequests _ => Ok record
       | MspSIWE _ _ => Ok (mkSession tok)
       | MspGetProfile => profile
       | FmGetFileBlob _ => Ok two_bytes
       | MspUploadFile _ _ _ _ _ => Ok (mkUploadReceipt "upload_successful")
       | _ => unexpected
       end |}.

Definition good_addrs : option (list string) :=
  Some ["/ip4/127.0.0.1/tcp/30350/p2p/12D3KooWPeer"].

(** The chain holds a record whose bucket id and fingerprint are not the
    submitted ones. *)
Definition w_mismatch : World :=
  w_upload good_addrs (Some (mkStorageRequest "0xother" "0xffff" None)) "tok-1"
    (Ok (mkUserInfo "0xA11CE")).

(** The sign-in succeeds, then [getProfile] is rejected. *)
Definition w_profile_fails : World :=
  w_upload good_addrs (Some sr_unassigned) "tok-1" (Raise http_500).

(** The sign-in resolves with an empty token. *)
Definition w_empty_token : World :=
  w_upload good_addrs (Some sr_unassigned) "" (Ok (mkUserInfo "0xA11CE")).

(** A world that answers every external call of the script; the parameter is
    the status the backend reports for the file.  Its account address and the
    bucket id it creates are short ids, which [createType] does not decode. *)
Definition w_script (file_status : string) : World :=
  {| address := "0xA11CE"; createType := hex_createType;
     respond X n r :=
       match r in Request X return Outcome X with
       | InitWasm => Ok tt
       | MspGetHealth => Ok (mkHealth "healthy")
       | CreateBucket _ => Ok ("0xb1", mkTxReceipt "success")
       | VerifyBucketCreation _ => Ok "bucket-datahaven-e2e"
       | WaitForBackendBucketReady _ => Ok tt
       | FmGetFingerprint _ => Ok (mkH256 "0xf1")
       | MspGetInfo => Ok (mkInfo "0xmsp" good_addrs)
       | IssueStorageRequest _ _ _ _ _ _ _ _ => Ok (Some "0x7a")
       | WaitForTransactionReceipt _ => Ok (mkTxReceipt "success")
       | FmComputeFileKey _ _ _ => Ok (mkH256 "0xfeed")
       | QueryStorageRequests _ => Ok (Some sr_confirmed)
       | MspSIWE _ _ => Ok (mkSession "tok-1")
       | MspGetProfile => Ok (mkUserInfo "0xA11CE")
       | FmGetFileBlob _ => Ok two_bytes
       | MspUploadFile _ _ _ _ _ => Ok (mkUploadReceipt "upload_successful")
       | MspGetFileInfo _ _ => Ok (mkFileInfo file_status "")
       | MspDownloadFile _ => Ok (mkDownloadResult 200 two_bytes (Some "image/png"))
       | PipeToFile _ _ => Ok tt
       | Disconnect => Ok tt
       | MspGetValuePropositions => Ok (Some [mkValueProp "0x01"])
       end |}.

(** A world on well-formed identifiers in which the whole script can
    succeed; the parameters are the addresses the MSP reports, the record
    found on chain, the way [getProfile] settles, the status of the upload
    receipt and the status the backend reports for the file. *)
Definition w_e2e (addrs : option (list string)) (record : option StorageRequestMetadata)
    (profile : Outcome UserInfo) (up_status file_status : string) : World :=
  {| address := e2e_address; createType := hex_createType;
     respond X n r :=
       match r in Request X return Outcome X with
       | InitWasm => Ok tt
       | MspGetHealth => Ok (mkHealth "healthy")
       | CreateBucket _ => Ok (e2e_bucket, mkTxReceipt "success")
       | VerifyBucketCreation _ => Ok "bucket-datahaven-e2e"
       | WaitForBackendBucketReady _ => Ok tt
       | FmGetFingerprint _ => Ok (mkH256 e2e_fingerprint)
       | MspGetInfo => Ok (mkInfo e2e_msp addrs)
       | IssueStorageRequest _ _ _ _ _ _ _ _ => Ok (Some e2e_tx)
       | WaitForTransactionReceipt _ => Ok (mkTxReceipt "success")
       | FmComputeFileKey _ _ _ => Ok (mkH256 e2e_file_key)
       | QueryStorageRequests _ => Ok record
       | MspSIWE _ _ => Ok (mkSession "tok-1")
       | MspGetProfile => profile
       | FmGetFileBlob _ => Ok two_bytes
       | MspUploadFile _ _ _ _ _ => Ok (mkUploadReceipt up_status)
       | MspGetFileInfo _ _ => Ok (mkFileInfo file_status "")
       | MspDownloadFile _ => Ok (mkDownloadResult 200 two_bytes (Some "image/png"))
       | PipeToFile _ _ => Ok tt
       | Disconnect => Ok tt
       | MspGetValuePropositions => Ok (Some [mkValueProp "0x01"])
       end |}.

Definition e2e_profile : UserInfo := mkUserInfo e2e_address.

(** The record of the request on chain, confirmed by the MSP. *)
Definition e2e_record : StorageRequestMetadata :=
  mkStorageRequest e2e_bucket e2e_fingerprint (Some (e2e_msp, true)).

(** A record whose bucket id and fingerprint are not the submitted ones. *)
Definition other_record : StorageRequestMetadata :=
  mkStorageRequest other_bucket other_fingerprint None.

(** Every collaborator cooperates. *)
Definition w_e2e_ok : World :=
  w_e2e good_addrs (Some e2e_record) (Ok e2e_profile) "upload_successful" "ready".

(** The chain holds [other_record] under the file key. *)
Definition w_e2e_mismatch : World :=
  w_e2e good_addrs (Some other_record) (Ok e2e_profile) "upload_successful" "ready".

(** The MSP reports one address, without a [/p2p/] segment. *)
Definition w_e2e_no_p2p : World :=
  w_e2e (Some ["/ip4/127.0.0.1/tcp/30350"]) (Some e2e_record) (Ok e2e_profile)
    "upload_successful" "ready".

(** The sign-in succeeds, then [getProfile] is rejected. *)
Definition w_e2e_profile_fails : World :=
  w_e2e good_addrs (Some e2e_record) (Raise http_500) "upload_successful" "ready".

(** The MSP answers the upload with the status ["failed"]. *)
Definition w_e2e_upload_failed : World :=
  w_e2e good_addrs (Some e2e_record) (Ok e2e_profile) "failed" "ready".

(** The backend reports the file as rejected. *)
Definition w_e2e_rejected : World :=
  w_e2e good_addrs (Some e2e_record) (Ok e2e_profile) "upload_successful" "rejected".

(** The external calls of a trace, without credentials and delays. *)
Definition calls_of (tr : list Action) : list Action :=
  omap (λ a, match a with
             | ACall _ r => Some (ACall None r)
             | ASleep _ => None
             end) tr.

(** Whether [sep] occurs somewhere in [s]. *)
Fixpoint occurs (sep s : string) : bool :=
  match s with
  | EmptyString => false
  | String c s' => String.prefix sep s || occurs sep s'
  end.

(** * More concrete environments *)

(** A backend whose download answers with [status]; the write stream settles
    as [pipe]. *)
Definition w_download (status : Z) (pipe : Outcome unit) : World :=
  {| address := "0xA11CE"; createType := hex_createType;
     respond X n r :=
       match r in Request X return Outcome X with
       | MspDownloadFile _ => Ok (mkDownloadResult status two_bytes (Some "image/png"))
       | PipeToFile _ _ => pipe
       | _ => unexpected
       end |}.

(** A backend offering the value propositions [vps]. *)
Definition w_value_props (vps : option (list ValueProp)) : World :=
  {| address := "0xA11CE"; createType := hex_createType;
     respond X n r :=
       match r in Request X return Outcome X with
       | MspGetValuePropositions => Ok vps
       | _ => unexpected
       end |}.

(** A world for [uploadFile] in which the transaction hash, the status of the
    transaction receipt and the status of the upload receipt are parameters. *)
Definition w_upload_tx (tx : option string) (tx_status up_status : string) : World :=
  {| address := "0xA11CE"; createType := hex_createType;
     respond X n r :=
       match r in Request X return Outcome X with
       | FmGetFingerprint _ => Ok (mkH256 "0xf1")
       | MspGetInfo => Ok (mkInfo "0xmsp" good_addrs)
       | IssueStorageRequest _ _ _ _ _ _ _ _ => Ok tx
       | WaitForTransactionReceipt _ => Ok (mkTxReceipt tx_status)
       | FmComputeFileKey _ _ _ => Ok (mkH256 "0xfeed")
       | QueryStorageRequests _ => Ok (Some sr_unassigned)
       | MspSIWE _ _ => Ok (mkSession "tok-1")
       | MspGetProfile => Ok (mkUserInfo "0xA11CE")
       | FmGetFileBlob _ => Ok two_bytes
       | MspUploadFile _ _ _ _ _ => Ok (mkUploadReceipt up_status)
       | _ => unexpected
       end |}.

(** A chain node that answers one query and then fails. *)
Definition w_chain_rpc_error : World :=
  {| address := "0xA11CE"; createType := hex_createType;
     respond X n r :=
       match r in Request X return Outcome X with
       | QueryStorageRequests _ =>
           match n with
           | 0 => Ok (Some sr_assigned)
           | _ => Raise http_500
           end
       | _ => unexpected
       end |}.

(** A backend that answers pending twice, then ready. *)
Definition ready_info : FileInfo := mkFileInfo "ready" "image/png".

Definition w_ready : World :=
  {| address := "0xA11CE"; createType := hex_createType;
     respond X n r :=
       match r in Request X return Outcome X with
       | MspGetFileInfo _ _ =>
           match n with
           | 0 | 1 => Ok pending_info
           | _ => Ok ready_info
           end
       | _ => unexpected
       end |}.

(** Whether an occurrence of [sep] in [cur +:+ s] starts inside [cur]. *)
Fixpoint starts_in (sep cur s : string) : bool :=
  match cur with
  | EmptyString => false
  | String c cur' => String.prefix sep (cur +:+ s) || starts_in sep cur' s
  end.

(** [addr] is [pre/p2p/id] with a non-empty [id], the delimiter occurring
    neither before that position nor inside [id]. *)
Definition ends_with_peer_id (addr id : string) : Prop :=
  ∃ pre, addr = pre +:+ "/p2p/" +:+ id ∧
         starts_in "/p2p/" pre ("/p2p/" +:+ id) = false ∧
         occurs "/p2p/" id = false ∧ id ≠ "".

(** [emits P m]: whatever the world answers, [m] only appends to the trace,
    and every action it appends satisfies [P]. *)
Definition emits {A} (P : Action → Prop) (m : M A) : Prop :=
  ∀ w st, ∃ acts, trace (m w st).2 = trace st ++ acts ∧ Forall P acts.

(** Any action but closing the chain connection. *)
Definition not_disconnect (a : Action) : Prop :=
  match a with
  | ACall _ r => match r with Disconnect => False | _ => True end
  | ASleep _ => True
  end.

(** An action that, if it names a bucket, names [b]. *)
Definition uses_bucket (b : string) (a : Action) : Prop :=
  match a with
  | ACall _ r =>
      match r with
      | VerifyBucketCreation b' | WaitForBackendBucketReady b'
      | IssueStorageRequest b' _ _ _ _ _ _ _ | FmComputeFileKey _ b' _
      | MspUploadFile b' _ _ _ _ | MspGetFileInfo b' _ => b' = b
      | _ => True
      end
  | ASleep _ => True
  end.

(** [grown P st0 s]: since [st0] the trace has only been appended to, with
    actions that all satisfy [P]. *)
Definition grown (P : Action → Prop) (st0 s : State) : Prop :=
  ∃ acts, trace s = trace st0 ++ acts ∧ Forall P acts.

(** The state after an external call, a log line, a stored token. *)
Definition called {X} (r : Request X) (w : World) (st : State) : State :=
  count_call
    (push_action (ACall (if via_mspClient r then sessionProvider w st else None) r) st).

Definition logged (items : list LogItem) (st : State) : State :=
  {| sessionToken := sessionToken st; fs := fs st; ncalls := ncalls st;
     trace := trace st; console := console st ++ [items]; steps := steps st |}.

Definition with_token (t : string) (st : State) : State :=
  {| sessionToken := Some t; fs := fs st; ncalls := ncalls st;
     trace := trace st; console := console st; steps := steps st |}.

Definition marked (m : StepMark) (st : State) : State :=
  {| sessionToken := sessionToken st; fs := fs st; ncalls := ncalls st;
     trace := trace st; console := console st; steps := steps st ++ [m] |}.

(** [hands_over s s' ms]: from [s] to [s'] the script only logged and left
    the marks [ms]: same session token, files, call count and trace. *)
Definition hands_over (s s' : State) (ms : list StepMark) : Prop :=
  sessionToken s' = sessionToken s ∧ fs s' = fs s ∧ ncalls s' = ncalls s ∧
  trace s' = trace s ∧ steps s' = steps s ++ ms.

(** [stage w prev ms m fail next]: one awaited operation of a script.  After
    the state [prev], and having only logged and left the marks [ms], the
    script runs [m]; if [m] resolves with [a], leaving the state [s'], then
    [next a s'] holds, and if [m] rejects with [e], leaving [s'], then
    [fail e s'] holds. *)
Definition stage {A} (w : World) (prev : State) (ms : list StepMark) (m : M A)
    (fail : JsError → State → Prop) (next : A → State → Prop) : Prop :=
  ∃ s, hands_over prev s ms ∧
       (∀ a s', m w s = (Ok a, s') → next a s') ∧
       (∀ e s', m w s = (Raise e, s') → fail e s').

(** The trace grew since [st] by actions that are not the disconnection,
    followed by the disconnection. *)
Definition disconnected_last (st s : State) : Prop :=
  ∃ before, trace s = trace st ++ before ++ [ACall None Disconnect] ∧
            Forall not_disconnect before.
(** * Reasoning principles *)

Lemma extends_refl st : extends st st 0 [].
Proof.
  unfold extends. rewrite Nat.add_0_r, app_nil_r. done.
Qed.

Lemma extends_trans st1 st2 st3 k1 k2 a1 a2 :
  extends st1 st2 k1 a1 → extends st2 st3 k2 a2 →
  extends st1 st3 (k1 + k2) (a1 ++ a2).
Proof.
  intros (T1 & F1 & N1 & R1 & S1) (T2 & F2 & N2 & R2 & S2).
  unfold extends. rewrite T2, F2, N2, R2, S2, T1, F1, N1, R1, S1.
  rewrite Nat.add_assoc, app_assoc. done.
Qed.

Lemma sessionProvider_token w st st' :
  sessionToken st' = sessionToken st → sessionProvider w st' = sessionProvider w st.
Proof. unfold sessionProvider. by intros ->. Qed.

Lemma rounds_S n round : rounds (S n) round = round ++ rounds n round.
Proof. reflexivity. Qed.

Lemma rounds_snoc n round : rounds (S n) round = rounds n round ++ round.
Proof.
  induction n as [|n IH].
  - unfold rounds. simpl. by rewrite app_nil_r.
  - rewrite (rounds_S (S n)), IH at 1. rewrite app_assoc. reflexivity.
Qed.

Section Loops.
Context {R : Type} (body : nat → M (option R)) (after : M R) (w : World).

Local Abbreviation continues := (continues body w).

Lemma continues_snoc n i st st1 st2 :
  continues n i st st1 →
  body (i + n) w st1 = (Ok None, st2) →
  continues (S n) i st st2.
Proof.
  induction 1 as [i st|n i st sta stb Hb Hc IH]; intros Hlast.
  - rewrite Nat.add_0_r in Hlast. econstructor; [exact Hlast|constructor].
  - econstructor; [exact Hb|]. apply IH.
    by replace (S i + n) with (i + S n) by lia.
Qed.

Lemma for_upto_continue n m i st st' :
  continues n i st st' →
  for_upto (n + m) i body after w st = for_upto m (i + n) body after w st'.
Proof.
  induction 1 as [i st|n i st sta stb Hb Hc IH].
  - by rewrite Nat.add_0_r.
  - simpl. unfold mbind, M_bind. rewrite Hb, IH.
    by replace (S i + n) with (i + S n) by lia.
Qed.

Lemma for_upto_exhausted i st : for_upto 0 i body after w st = after w st.
Proof. reflexivity. Qed.

Lemma for_upto_return m i st st' v :
  body i w st = (Ok (Some v), st') →
  for_upto (S m) i body after w st = (Ok v, st').
Proof. intros Hb. simpl. unfold mbind, M_bind. by rewrite Hb. Qed.

Lemma for_upto_raise m i st st' e :
  body i w st = (Raise e, st') →
  for_upto (S m) i body after w st = (Raise e, st').
Proof. intros Hb. simpl. unfold mbind, M_bind. by rewrite Hb. Qed.

(** Invariant rule: whatever the world does, a loop of [n] iterations ends
    in a state related to the initial one by an invariant that every
    iteration and the code after the loop preserve. *)
Lemma for_upto_invariant (I : nat → State → Prop) (Q : Outcome R → State → Prop) n :
  ∀ i st,
    I i st →
    (∀ j s, i ≤ j < i + n → I j s →
       match body j w s with
       | (Ok None, s') => I (S j) s'
       | (Ok (Some v), s') => Q (Ok v) s'
       | (Raise e, s') => Q (Raise e) s'
       end) →
    (∀ s, I (i + n) s → Q (after w s).1 (after w s).2) →
    Q (for_upto n i body after w st).1 (for_upto n i body after w st).2.
Proof.
  induction n as [|n IH]; intros i st Hi Hbody Hafter.
  - simpl. apply Hafter. by rewrite Nat.add_0_r.
  - simpl. unfold mbind, M_bind.
    assert (Hrange : i ≤ i < i + S n) by lia.
    specialize (Hbody i st Hrange Hi) as Hstep.
    destruct (body i w st) as [[[v|]|e] s']; simpl; try done.
    apply IH; [done| |].
    + intros j s Hj. apply Hbody. lia.
    + intros s Hs. apply Hafter. by replace (i + S n) with (S i + n) by lia.
Qed.

(** Polling: when every attempt that meets a [good] answer falls through
    after one external call and the actions [round], then [n] good answers
    in a row are [n] such rounds, and the loop goes on after them. *)
Lemma polls (good : nat → Prop) (round : State → list Action) :
  (∀ st st', sessionToken st' = sessionToken st → round st' = round st) →
  (∀ i st, good (ncalls st) →
     ∃ st', body i w st = (Ok None, st') ∧ extends st st' 1 (round st)) →
  ∀ n i st,
    (∀ j, j < n → good (ncalls st + j)) →
    ∃ st', continues n i st st' ∧ extends st st' n (rounds n (round st)).
Proof.
  intros Hround Hattempt. induction n as [|n IH]; intros i st Hall.
  - exists st. split; [constructor|apply extends_refl].
  - destruct (Hattempt i st) as (st1 & Hrun & Hext1).
    { specialize (Hall 0). rewrite Nat.add_0_r in Hall. apply Hall. lia. }
    destruct (IH (S i) st1) as (st2 & Hcont & Hext2).
    { intros j Hj. destruct Hext1 as (_ & _ & -> & _).
      replace (ncalls st + 1 + j) with (ncalls st + S j) by lia.
      apply Hall. lia. }
    exists st2. split; [by econstructor|].
    rewrite (Hround st st1) in Hext2 by apply Hext1.
    apply (extends_trans _ _ _ _ _ _ _ Hext1 Hext2).
Qed.

Lemma polls_prefix (good : nat → Prop) (round : State → list Action) :
  (∀ st st', sessionToken st' = sessionToken st → round st' = round st) →
  (∀ i st, good (ncalls st) →
     ∃ st', body i w st = (Ok None, st') ∧ extends st st' 1 (round st)) →
  ∀ n m i st,
    (∀ j, j < n → good (ncalls st + j)) →
    ∃ st', for_upto (n + m) i body after w st = for_upto m (i + n) body after w st' ∧
           extends st st' n (rounds n (round st)).
Proof.
  intros Hround Hattempt n m i st Hall.
  destruct (polls good round Hround Hattempt n i st Hall) as (st' & Hcont & Hext).
  exists st'. split; [|done]. by apply for_upto_continue.
Qed.
End Loops.

(** Unfolding the monad one operation at a time. *)
Ltac mstep :=
  unfold mbind, M_bind, mret, M_ret, try_catch, throw, call, log, sleep; cbn.

(** Closing goals about how a concrete final state extends the initial one. *)
Ltac solve_extends :=
  unfold extends; cbn; repeat split;
  first [done | lia | by rewrite <- ?app_assoc].

(** ** One attempt of [waitForBackendFileReady] *)
Section ReadyAttempt.
Context (w : World) (bucketId fileKey : string) (maxAttempts : nat) (delayMs : Z).

Local Abbreviation attempt := (ready_attempt bucketId fileKey maxAttempts delayMs).
Local Abbreviation answer st := (respond w (ncalls st) (MspGetFileInfo bucketId fileKey)).
Local Abbreviation query st := (ACall (sessionProvider w st) (MspGetFileInfo bucketId fileKey)).

Lemma ready_attempt_ready i st fi :
  answer st = Ok fi → fi_status fi = "ready" →
  ∃ st', attempt i w st = (Ok (Some fi), st') ∧ extends st st' 1 [query st].
Proof.
  intros Ha Hs. unfold ready_attempt. mstep. rewrite Ha, Hs. cbn.
  eexists; split; [reflexivity|]. solve_extends.
Qed.

Lemma ready_attempt_terminal i st fi :
  answer st = Ok fi →
  ∃ st', extends st st' 1 [query st] ∧
    (fi_status fi = "revoked" → attempt i w st = (Raise revoked_error, st')) ∧
    (fi_status fi = "rejected" → attempt i w st = (Raise rejected_error, st')) ∧
    (fi_status fi = "expired" → attempt i w st = (Raise expired_error, st')).
Proof.
  intros Ha. eexists; split; [|repeat split].
  2-4: intros Hs; unfold ready_attempt; mstep; rewrite Ha, Hs; cbn; reflexivity.
  solve_extends.
Qed.

Lemma ready_attempt_transient i st :
  transient (answer st) = true →
  ∃ st', attempt i w st = (Ok None, st') ∧
         extends st st' 1 [query st; ASleep delayMs].
Proof.
  intros Ht. unfold ready_attempt. mstep.
  destruct (respond w (ncalls st) (MspGetFileInfo bucketId fileKey)) as [fi|e]; cbn in Ht |- *.
  - unfold is_transient_status in Ht.
    destruct (String.eqb (fi_status fi) "ready"); [done|].
    destruct (String.eqb (fi_status fi) "revoked"); [done|].
    destruct (String.eqb (fi_status fi) "rejected"); [done|].
    destruct (String.eqb (fi_status fi) "expired"); [done|].
    cbn. eexists; split; [reflexivity|].
    solve_extends.
  - rewrite Ht. cbn. eexists; split; [reflexivity|].
    solve_extends.
Qed.

Lemma ready_attempt_other_error i st e :
  answer st = Raise e → is_not_found e = false →
  ∃ st', attempt i w st = (Raise e, st') ∧ extends st st' 1 [query st].
Proof.
  intros Ha Hnf. unfold ready_attempt. mstep. rewrite Ha. cbn. rewrite Hnf. cbn.
  eexists; split; [reflexivity|]. solve_extends.
Qed.
End ReadyAttempt.

Lemma strict_eq_true a b : strict_eq a b = true ↔ a = b.
Proof.
  destruct a, b; cbn; try (split; [done|congruence]); try done.
  - rewrite Z.eqb_eq. split; congruence.
  - rewrite String.eqb_eq. split; congruence.
Qed.

Lemma is_not_found_true e :
  is_not_found e = true ↔
  err_status e = JNum 404 ∨ err_body_error e = JStr "Not found: Record".
Proof.
  unfold is_not_found. rewrite orb_true_iff, !strict_eq_true. done.
Qed.

Lemma is_not_found_false e :
  is_not_found e = false ↔
  err_status e ≠ JNum 404 ∧ err_body_error e ≠ JStr "Not found: Record".
Proof.
  rewrite <- not_true_iff_false, is_not_found_true. tauto.
Qed.

(** ** The loop of [waitForBackendFileReady] *)
Section ReadyLoop.
Context (w : World) (bucketId fileKey : string) (maxAttempts : nat) (delayMs : Z).
Context (after : M FileInfo).

Local Abbreviation attempt := (ready_attempt bucketId fileKey maxAttempts delayMs).
Local Abbreviation answer n := (respond w n (MspGetFileInfo bucketId fileKey)).
Local Abbreviation query st := (ACall (sessionProvider w st) (MspGetFileInfo bucketId fileKey)).

(** [n] transient answers in a row are [n] rounds of query and delay. *)
Lemma ready_loop_prefix n m i st :
  (∀ j, j < n → transient (answer (ncalls st + j)) = true) →
  ∃ st', for_upto (n + m) i attempt after w st = for_upto m (i + n) attempt after w st' ∧
         extends st st' n (rounds n [query st; ASleep delayMs]).
Proof.
  apply (polls_prefix attempt after w
           (λ k, transient (answer k) = true)
           (λ s, [query s; ASleep delayMs])).
  - intros s s' Hs. by rewrite (sessionProvider_token w s s').
  - intros k s. apply ready_attempt_transient.
Qed.

End ReadyLoop.

Lemma waitForBackendFileReady_unfold bucketId fileKey :
  waitForBackendFileReady bucketId fileKey =
  for_upto 144 0 (ready_attempt bucketId fileKey 144 5000) (throw ready_timeout).
Proof. reflexivity. Qed.

Lemma waitForBackendFileReady_split i bucketId fileKey :
  i < 144 →
  waitForBackendFileReady bucketId fileKey =
  for_upto (i + S (143 - i)) 0 (ready_attempt bucketId fileKey 144 5000) (throw ready_timeout).
Proof.
  intros Hi. replace (i + S (143 - i)) with 144 by lia. reflexivity.
Qed.

(** * The polling loop of the backend *)

(** C3. [waitForBackendFileReady] stops at the first backend answer whose
    status is revoked, rejected or expired: when the answers before the
    [i]-th are transient and the [i]-th carries one of these statuses, the
    function rejects right after that query (query number [i+1], no delay
    after it, no further query), with the error of that status: cancelled by
    user, rejected by MSP, replication deadline missed.  The three errors are
    pairwise distinct and none is the timeout error. *)
Theorem C3_terminal_status_aborts w st bucketId fileKey i fi :
  i < 144 →
  (∀ j, j < i →
     transient (respond w (ncalls st + j) (MspGetFileInfo bucketId fileKey)) = true) →
  respond w (ncalls st + i) (MspGetFileInfo bucketId fileKey) = Ok fi →
  fi_status fi = "revoked" ∨ fi_status fi = "rejected" ∨ fi_status fi = "expired" →
  ∃ e st',
    waitForBackendFileReady bucketId fileKey w st = (Raise e, st') ∧
    (fi_status fi = "revoked" → e = revoked_error) ∧
    (fi_status fi = "rejected" → e = rejected_error) ∧
    (fi_status fi = "expired" → e = expired_error) ∧
    e ≠ ready_timeout ∧
    revoked_error ≠ rejected_error ∧ revoked_error ≠ expired_error ∧
    rejected_error ≠ expired_error ∧
    extends st st' (S i)
      (rounds i [ACall (sessionProvider w st) (MspGetFileInfo bucketId fileKey); ASleep 5000]
       ++ [ACall (sessionProvider w st) (MspGetFileInfo bucketId fileKey)]).
Proof.
  intros Hi Hbefore Hans Hstatus.
  rewrite (waitForBackendFileReady_split i) by done.
  destruct (ready_loop_prefix w bucketId fileKey 144 5000 (throw ready_timeout)
              i (S (143 - i)) 0 st Hbefore) as (st1 & -> & Hext1).
  assert (Hn1 : ncalls st1 = ncalls st + i) by apply Hext1.
  rewrite <- Hn1 in Hans.
  destruct (ready_attempt_terminal w bucketId fileKey 144 5000 (0 + i) st1 fi Hans)
    as (st2 & Hext2 & Hrev & Hrej & Hexp).
  rewrite (sessionProvider_token w st st1) in Hext2 by apply Hext1.
  pose proof (extends_trans _ _ _ _ _ _ _ Hext1 Hext2) as Hext.
  replace (i + 1) with (S i) in Hext by lia.
  destruct Hstatus as [Hs|[Hs|Hs]].
  - exists revoked_error, st2.
    erewrite for_upto_raise by (apply Hrev; exact Hs).
    rewrite Hs. split_and!; try done; try discriminate.
  - exists rejected_error, st2.
    erewrite for_upto_raise by (apply Hrej; exact Hs).
    rewrite Hs. split_and!; try done; try discriminate.
  - exists expired_error, st2.
    erewrite for_upto_raise by (apply Hexp; exact Hs).
    rewrite Hs. split_and!; try done; try discriminate.
Qed.


(** C6. Inside [waitForBackendFileReady], a rejected query whose error has
    status 404 or whose body says ["Not found: Record"] counts as not yet
    indexed: the attempt ends with the 5000 ms delay and the loop goes on with
    the remaining attempts.  A query rejected with any other error ends the
    function at once with that very error (no delay, no further query). *)
Theorem C6_not_found_retried_other_errors_abort w st bucketId fileKey i e :
  let q := ACall (sessionProvider w st) (MspGetFileInfo bucketId fileKey) in
  i < 144 →
  (∀ j, j < i →
     transient (respond w (ncalls st + j) (MspGetFileInfo bucketId fileKey)) = true) →
  respond w (ncalls st + i) (MspGetFileInfo bucketId fileKey) = Raise e →
  (err_status e = JNum 404 ∨ err_body_error e = JStr "Not found: Record" →
   ∃ st1,
     waitForBackendFileReady bucketId fileKey w st =
       for_upto (143 - i) (S i) (ready_attempt bucketId fileKey 144 5000)
         (throw ready_timeout) w st1 ∧
     extends st st1 (S i) (rounds (S i) [q; ASleep 5000])) ∧
  (err_status e ≠ JNum 404 ∧ err_body_error e ≠ JStr "Not found: Record" →
   ∃ st',
     waitForBackendFileReady bucketId fileKey w st = (Raise e, st') ∧
     extends st st' (S i) (rounds i [q; ASleep 5000] ++ [q])).
Proof.
  intros q Hi Hbefore Hans. subst q. split.
  - intros Hnf. apply is_not_found_true in Hnf.
    assert (Hall : ∀ j, j < S i →
              transient (respond w (ncalls st + j) (MspGetFileInfo bucketId fileKey)) = true).
    { intros j Hj. destruct (decide (j = i)) as [->|Hne].
      - rewrite Hans. exact Hnf.
      - apply Hbefore. lia. }
    destruct (ready_loop_prefix w bucketId fileKey 144 5000 (throw ready_timeout)
                (S i) (143 - i) 0 st Hall) as (st1 & Heq & Hext).
    exists st1. split; [|done].
    rewrite Nat.add_0_l in Heq.
    rewrite <- Heq, waitForBackendFileReady_unfold.
    by replace (S i + (143 - i)) with 144 by lia.
  - intros Hother. apply is_not_found_false in Hother.
    rewrite (waitForBackendFileReady_split i) by done.
    destruct (ready_loop_prefix w bucketId fileKey 144 5000 (throw ready_timeout)
                i (S (143 - i)) 0 st Hbefore) as (st1 & -> & Hext1).
    assert (Hn1 : ncalls st1 = ncalls st + i) by apply Hext1.
    rewrite <- Hn1 in Hans.
    destruct (ready_attempt_other_error w bucketId fileKey 144 5000 (0 + i) st1 e Hans Hother)
      as (st2 & Hrun & Hext2).
    rewrite (sessionProvider_token w st st1) in Hext2 by apply Hext1.
    pose proof (extends_trans _ _ _ _ _ _ _ Hext1 Hext2) as Hext.
    replace (i + 1) with (S i) in Hext by lia.
    exists st2. split; [|done]. by apply for_upto_raise.
Qed.

(** X18. When the first non-transient answer is a file whose status is ["ready"],
    the function resolves with that file right after the query. *)
Lemma waitForBackendFileReady_ready w st bucketId fileKey i fi :
  i < 144 →
  (∀ j, j < i →
     transient (respond w (ncalls st + j) (MspGetFileInfo bucketId fileKey)) = true) →
  respond w (ncalls st + i) (MspGetFileInfo bucketId fileKey) = Ok fi →
  fi_status fi = "ready" →
  ∃ st', waitForBackendFileReady bucketId fileKey w st = (Ok fi, st') ∧
         extends st st' (S i)
           (rounds i [ACall (sessionProvider w st) (MspGetFileInfo bucketId fileKey); ASleep 5000]
            ++ [ACall (sessionProvider w st) (MspGetFileInfo bucketId fileKey)]).
Proof.
  intros Hi Hbefore Hans Hready.
  rewrite (waitForBackendFileReady_split i) by done.
  destruct (ready_loop_prefix w bucketId fileKey 144 5000 (throw ready_timeout)
              i (S (143 - i)) 0 st Hbefore) as (st1 & -> & Hext1).
  assert (Hn1 : ncalls st1 = ncalls st + i) by apply Hext1.
  rewrite <- Hn1 in Hans.
  destruct (ready_attempt_ready w bucketId fileKey 144 5000 (0 + i) st1 fi Hans Hready)
    as (st2 & Hrun & Hext2).
  rewrite (sessionProvider_token w st st1) in Hext2 by apply Hext1.
  pose proof (extends_trans _ _ _ _ _ _ _ Hext1 Hext2) as Hext.
  replace (i + 1) with (S i) in Hext by lia.
  exists st2. split; [|done]. by apply for_upto_return.
Qed.

(** * The polling loop of the chain *)

(** ** One attempt of [waitForMSPConfirmOnChain] *)
Section ConfirmAttempt.
Context (w : World) (fileKey : string) (maxAttempts : nat) (delayMs : Z).

Local Abbreviation attempt := (confirm_attempt fileKey maxAttempts delayMs).
Local Abbreviation answer n := (respond w n (QueryStorageRequests fileKey)).
Local Abbreviation query := (ACall None (QueryStorageRequests fileKey)).

Lemma confirm_attempt_gone i st :
  answer (ncalls st) = Ok None →
  ∃ st', attempt i w st = (Raise (gone_error fileKey), st') ∧ extends st st' 1 [query].
Proof.
  intros Ha. unfold confirm_attempt. mstep. rewrite Ha. cbn.
  eexists; split; [reflexivity|]. solve_extends.
Qed.

Lemma confirm_attempt_confirmed i st data :
  answer (ncalls st) = Ok (Some data) → mspConfirmed data = true →
  ∃ st', attempt i w st = (Ok (Some tt), st') ∧ extends st st' 1 [query].
Proof.
  intros Ha Hc. unfold confirm_attempt. mstep. rewrite Ha. cbn. rewrite Hc. cbn.
  eexists; split; [reflexivity|]. solve_extends.
Qed.

Lemma confirm_attempt_unconfirmed i st :
  unconfirmed (answer (ncalls st)) = true →
  ∃ st', attempt i w st = (Ok None, st') ∧ extends st st' 1 [query; ASleep delayMs].
Proof.
  intros Hu. unfold confirm_attempt. mstep.
  destruct (respond w (ncalls st) (QueryStorageRequests fileKey)) as [[data|]|e];
    cbn in Hu |- *; try done.
  destruct (mspConfirmed data); [done|]. cbn.
  eexists; split; [reflexivity|]. solve_extends.
Qed.

Lemma confirm_loop_prefix after n m i st :
  (∀ j, j < n → unconfirmed (answer (ncalls st + j)) = true) →
  ∃ st', for_upto (n + m) i attempt after w st = for_upto m (i + n) attempt after w st' ∧
         extends st st' n (rounds n [query; ASleep delayMs]).
Proof.
  apply (polls_prefix attempt after w
           (λ k, unconfirmed (answer k) = true)
           (λ _, [query; ASleep delayMs])).
  - done.
  - intros k s. apply confirm_attempt_unconfirmed.
Qed.
End ConfirmAttempt.

Lemma waitForMSPConfirmOnChain_unfold fileKey :
  waitForMSPConfirmOnChain fileKey =
  for_upto 10 0 (confirm_attempt fileKey 10 2000) (throw (confirm_timeout fileKey 10 2000)).
Proof. reflexivity. Qed.

Lemma waitForMSPConfirmOnChain_split i fileKey :
  i < 10 →
  waitForMSPConfirmOnChain fileKey =
  for_upto (i + S (9 - i)) 0 (confirm_attempt fileKey 10 2000)
    (throw (confirm_timeout fileKey 10 2000)).
Proof.
  intros Hi. replace (i + S (9 - i)) with 10 by lia. reflexivity.
Qed.

Lemma mspConfirmed_true data :
  mspConfirmed data = true ↔ ∃ id, sr_msp data = Some (id, true).
Proof.
  unfold mspConfirmed. destruct (sr_msp data) as [[id b]|]; cbn.
  - split; [intros ->; by exists id|]. by intros (id' & [= _ ->]).
  - split; [done|]. by intros (id' & [=]).
Qed.

Lemma confirm_timeout_message fileKey :
  err_message (confirm_timeout fileKey 10 2000) =
  "FileKey " +:+ fileKey +:+ " not ready for download after waiting 20000 ms".
Proof. reflexivity. Qed.

(** C5. [waitForMSPConfirmOnChain] re-reads the storage request at each
    attempt.  With unconfirmed records before attempt [i]: if the record is
    absent at attempt [i] the function rejects at once with the
    "no longer exists" error, which is not the timeout error; if the record
    at attempt [i] carries an MSP whose confirmation flag is true the function
    resolves at once.  If all 10 records are unconfirmed it makes exactly 10
    queries, each followed by a delay of 2000 ms, and rejects with the timeout
    error. *)
Theorem C5_msp_confirmation_wait w st fileKey :
  let q := ACall None (QueryStorageRequests fileKey) in
  let answer j := respond w (ncalls st + j) (QueryStorageRequests fileKey) in
  let r := waitForMSPConfirmOnChain fileKey w st in
  (∀ i, i < 10 → (∀ j, j < i → unconfirmed (answer j) = true) →
     answer i = Ok None →
     r.1 = Raise (gone_error fileKey) ∧
     gone_error fileKey ≠ confirm_timeout fileKey 10 2000 ∧
     extends st r.2 (S i) (rounds i [q; ASleep 2000] ++ [q])) ∧
  (∀ i data, i < 10 → (∀ j, j < i → unconfirmed (answer j) = true) →
     answer i = Ok (Some data) → (∃ id, sr_msp data = Some (id, true)) →
     r.1 = Ok tt ∧ extends st r.2 (S i) (rounds i [q; ASleep 2000] ++ [q])) ∧
  ((∀ j, j < 10 → unconfirmed (answer j) = true) →
     r.1 = Raise (confirm_timeout fileKey 10 2000) ∧
     extends st r.2 10 (rounds 10 [q; ASleep 2000])).
Proof.
  intros q answer r. subst q answer r. cbv beta. split_and!.
  - intros i Hi Hbefore Hans.
    rewrite (waitForMSPConfirmOnChain_split i) by done.
    destruct (confirm_loop_prefix w fileKey 10 2000 (throw (confirm_timeout fileKey 10 2000))
                i (S (9 - i)) 0 st Hbefore) as (st1 & -> & Hext1).
    assert (Hn1 : ncalls st1 = ncalls st + i) by apply Hext1.
    rewrite <- Hn1 in Hans.
    destruct (confirm_attempt_gone w fileKey 10 2000 (0 + i) st1 Hans) as (st2 & Hrun & Hext2).
    pose proof (extends_trans _ _ _ _ _ _ _ Hext1 Hext2) as Hext.
    replace (i + 1) with (S i) in Hext by lia.
    erewrite for_upto_raise by exact Hrun. split_and!; [done| |done].
    intros [=].
  - intros i data Hi Hbefore Hans Hconf. apply mspConfirmed_true in Hconf.
    rewrite (waitForMSPConfirmOnChain_split i) by done.
    destruct (confirm_loop_prefix w fileKey 10 2000 (throw (confirm_timeout fileKey 10 2000))
                i (S (9 - i)) 0 st Hbefore) as (st1 & -> & Hext1).
    assert (Hn1 : ncalls st1 = ncalls st + i) by apply Hext1.
    rewrite <- Hn1 in Hans.
    destruct (confirm_attempt_confirmed w fileKey 10 2000 (0 + i) st1 data Hans Hconf)
      as (st2 & Hrun & Hext2).
    pose proof (extends_trans _ _ _ _ _ _ _ Hext1 Hext2) as Hext.
    replace (i + 1) with (S i) in Hext by lia.
    erewrite for_upto_return by exact Hrun. done.
  - intros Hall. rewrite waitForMSPConfirmOnChain_unfold.
    destruct (confirm_loop_prefix w fileKey 10 2000 (throw (confirm_timeout fileKey 10 2000))
                10 0 0 st Hall) as (st1 & Heq & Hext).
    rewrite Nat.add_0_r in Heq. rewrite Heq. done.
Qed.

(** C9. In [waitForMSPConfirmOnChain], a record that exists but has no MSP
    assigned is classified as not confirmed, and the attempt that reads it is
    not an error: it ends with the 2000 ms delay and the loop goes on with the
    remaining attempts towards the cap. *)
Theorem C9_unassigned_msp_keeps_polling w st fileKey i data :
  let q := ACall None (QueryStorageRequests fileKey) in
  let answer j := respond w (ncalls st + j) (QueryStorageRequests fileKey) in
  i < 10 →
  (∀ j, j < i → unconfirmed (answer j) = true) →
  answer i = Ok (Some data) →
  sr_msp data = None →
  mspConfirmed data = false ∧
  ∃ st1,
    waitForMSPConfirmOnChain fileKey w st =
      for_upto (9 - i) (S i) (confirm_attempt fileKey 10 2000)
        (throw (confirm_timeout fileKey 10 2000)) w st1 ∧
    extends st st1 (S i) (rounds (S i) [q; ASleep 2000]).
Proof.
  intros q answer Hi Hbefore Hans Hmsp. subst q answer. cbv beta in *.
  assert (Hcls : mspConfirmed data = false) by (unfold mspConfirmed; by rewrite Hmsp).
  split; [done|].
  assert (Hall : ∀ j, j < S i →
            unconfirmed (respond w (ncalls st + j) (QueryStorageRequests fileKey)) = true).
  { intros j Hj. destruct (decide (j = i)) as [->|Hne].
    - rewrite Hans. cbn. by rewrite Hcls.
    - apply Hbefore. lia. }
  destruct (confirm_loop_prefix w fileKey 10 2000 (throw (confirm_timeout fileKey 10 2000))
              (S i) (9 - i) 0 st Hall) as (st1 & Heq & Hext).
  exists st1. split; [|done].
  rewrite Nat.add_0_l in Heq.
  rewrite <- Heq, waitForMSPConfirmOnChain_unfold.
  by replace (S i + (9 - i)) with 10 by lia.
Qed.

(** * Integrity check *)

Lemma Buffer_equals_true a : ∀ b, Buffer_equals a b = true ↔ a = b.
Proof.
  induction a as [|x a IH]; intros [|y b]; cbn; try (split; [done|congruence]); try done.
  rewrite andb_true_iff, IH. split.
  - intros [Hxy ->]. by rewrite (Byte.byte_dec_bl _ _ Hxy).
  - intros [= -> ->]. split; [by apply Byte.byte_dec_lb|done].
Qed.

Lemma Buffer_equals_false a b : Buffer_equals a b = false ↔ a ≠ b.
Proof. rewrite <- not_true_iff_false, Buffer_equals_true. done. Qed.

(** C7. For any two paths naming existing files, [verifyDownload] resolves
    (it does not reject on a mismatch) with a boolean that is [true] exactly
    when the two contents are the same sequence of bytes: [true] for two empty
    files, [false] when the last byte differs and [false] when one file has
    one more trailing byte.  It changes nothing. *)
Theorem C7_verifyDownload_iff_identical w st originalPath downloadedPath
    (original downloaded : list byte) :
  fs st !! originalPath = Some original →
  fs st !! downloadedPath = Some downloaded →
  ∃ b : bool,
    verifyDownload originalPath downloadedPath w st = (Ok b, st) ∧
    (b = true ↔ original = downloaded) ∧
    (original = [] → downloaded = [] → b = true) ∧
    (∀ l x y, original = l ++ [x] → downloaded = l ++ [y] → x ≠ y → b = false) ∧
    (∀ x, downloaded = original ++ [x] ∨ original = downloaded ++ [x] → b = false).
Proof.
  intros Ho Hd. exists (Buffer_equals original downloaded). split_and!.
  - unfold verifyDownload, readFile. mstep. rewrite Ho. cbn. rewrite Hd. done.
  - apply Buffer_equals_true.
  - intros -> ->. done.
  - intros l x y -> -> Hxy. apply Buffer_equals_false.
    intros Heq. apply app_inv_head in Heq. congruence.
  - intros x [->| ->]; apply Buffer_equals_false; intros Heq.
    + apply (f_equal length) in Heq. rewrite length_app in Heq. cbn in Heq. lia.
    + apply (f_equal length) in Heq. rewrite length_app in Heq. cbn in Heq. lia.
Qed.

(** * Components of the state that an operation leaves alone *)
Section Stable.
Context {X : Type} (proj : State → X).

Lemma stable_ret {A} (a : A) : stable proj (mret a).
Proof. by intros w st. Qed.

Lemma stable_throw {A} e : stable proj (@throw A e).
Proof. by intros w st. Qed.

Lemma stable_bind {A B} (m : M A) (f : A → M B) :
  stable proj m → (∀ a, stable proj (f a)) → stable proj (mbind f m).
Proof.
  intros Hm Hf w st. unfold mbind, M_bind.
  specialize (Hm w st). destruct (m w st) as [[a|e] st']; cbn in *; [|done].
  by rewrite Hf.
Qed.

Lemma stable_try_catch {A} (body : M A) handler :
  stable proj body → (∀ e, stable proj (handler e)) → stable proj (try_catch body handler).
Proof.
  intros Hb Hh w st. unfold try_catch.
  specialize (Hb w st). destruct (body w st) as [[a|e] st']; cbn in *; [done|].
  by rewrite Hh.
Qed.

Lemma stable_for_upto {R} body (after : M R) n :
  (∀ i, stable proj (body i)) → stable proj after →
  ∀ i, stable proj (for_upto n i body after).
Proof.
  intros Hb Ha. induction n as [|n IH]; intros i; cbn; [done|].
  apply stable_bind; [done|]. intros [v|]; [apply stable_ret|apply IH].
Qed.

Lemma stable_get_address : stable proj get_address.
Proof. by intros w st. Qed.

Lemma stable_stat_size path : stable proj (stat_size path).
Proof. intros w st. unfold stat_size. by destruct (fs st !! path). Qed.

Lemma stable_readFile path : stable proj (readFile path).
Proof. intros w st. unfold readFile. by destruct (fs st !! path). Qed.

Lemma stable_registry_createType ty value : stable proj (registry_createType ty value).
Proof. by intros w st. Qed.
End Stable.

(** Operations on one component are stable for the others. *)
Lemma steps_call {X} (r : Request X) : stable steps (call r).
Proof. by intros w st. Qed.
Lemma steps_log items : stable steps (log items).
Proof. by intros w st. Qed.
Lemma steps_sleep ms : stable steps (sleep ms).
Proof. by intros w st. Qed.
Lemma steps_set_sessionToken t : stable steps (set_sessionToken t).
Proof. by intros w st. Qed.
Lemma steps_write_fs path data : stable steps (write_fs path data).
Proof. by intros w st. Qed.

Lemma token_call {X} (r : Request X) : stable sessionToken (call r).
Proof. by intros w st. Qed.
Lemma token_log items : stable sessionToken (log items).
Proof. by intros w st. Qed.
Lemma token_sleep ms : stable sessionToken (sleep ms).
Proof. by intros w st. Qed.
Lemma token_mark m : stable sessionToken (mark m).
Proof. by intros w st. Qed.
Lemma token_write_fs path data : stable sessionToken (write_fs path data).
Proof. by intros w st. Qed.

Create HintDb stable discriminated.
#[local] Hint Resolve steps_call steps_log steps_sleep steps_set_sessionToken
  steps_write_fs token_call token_log token_sleep token_mark token_write_fs : stable.
#[local] Hint Resolve stable_ret stable_throw stable_get_address stable_stat_size
  stable_readFile stable_registry_createType : stable.

(** Syntax-directed proof that an operation is stable. *)
Ltac stable_step :=
  lazymatch goal with
  | |- stable _ (mbind _ _) => apply stable_bind; [|intros ?]
  | |- stable _ (try_catch _ _) => apply stable_try_catch; [|intros ?]
  | |- stable _ (for_upto _ _ _ _) => apply stable_for_upto; [intros ?|]
  | |- stable _ (if ?b then _ else _) => destruct b
  | |- stable _ (match ?x with _ => _ end) => destruct x
  | |- stable _ _ => solve [auto with stable]
  end.
Ltac solve_stable := cbv zeta; repeat stable_step.

Section StableOperations.
Context {X : Type} (proj : State → X).
Context (proj_call : ∀ Y (r : Request Y), stable proj (call r)).
Context (proj_log : ∀ items, stable proj (log items)).
Context (proj_sleep : ∀ ms, stable proj (sleep ms)).

Local Hint Resolve proj_call proj_log proj_sleep : stable.

Lemma stable_getMspInfo : stable proj getMspInfo.
Proof. unfold getMspInfo. solve_stable. Qed.

Lemma stable_getMspHealth : stable proj getMspHealth.
Proof. unfold getMspHealth. solve_stable. Qed.

Lemma stable_getValueProps : stable proj getValueProps.
Proof. unfold getValueProps. solve_stable. Qed.

Lemma stable_verifyDownload p1 p2 : stable proj (verifyDownload p1 p2).
Proof. unfold verifyDownload. solve_stable. Qed.

Lemma stable_waitForMSPConfirmOnChain k : stable proj (waitForMSPConfirmOnChain k).
Proof. unfold waitForMSPConfirmOnChain, confirm_attempt. solve_stable. Qed.

Lemma stable_waitForBackendFileReady b k : stable proj (waitForBackendFileReady b k).
Proof. unfold waitForBackendFileReady, ready_attempt. solve_stable. Qed.

Context (proj_write_fs : ∀ path data, stable proj (write_fs path data)).
Local Hint Resolve proj_write_fs : stable.

Lemma stable_downloadFile k path : stable proj (downloadFile k path).
Proof. unfold downloadFile, pipe_to_file. solve_stable. Qed.

Context (proj_set_sessionToken : ∀ t, stable proj (set_sessionToken t)).
Local Hint Resolve proj_set_sessionToken : stable.

Lemma stable_authenticateUser : stable proj authenticateUser.
Proof. unfold authenticateUser. solve_stable. Qed.

Lemma stable_uploadFile b p f : stable proj (uploadFile b p f).
Proof.
  pose proof stable_getMspInfo. pose proof stable_authenticateUser.
  unfold uploadFile. solve_stable.
Qed.
End StableOperations.

(** * The orchestrator *)

Lemma wp_bind {A B} (m : M A) (f : A → M B) w st Q :
  wp m w st (λ o st', match o with
                      | Ok a => wp (f a) w st' Q
                      | Raise e => Q (Raise e) st'
                      end) →
  wp (mbind f m) w st Q.
Proof.
  unfold wp, mbind, M_bind. by destruct (m w st) as [[a|e] st'].
Qed.

(** * Upload *)

Lemma truthy_true s : truthy s = true ↔ s ≠ "".
Proof.
  unfold truthy. rewrite negb_true_iff, <- not_true_iff_false, String.eqb_eq. done.
Qed.

Lemma extractPeerIDs_nonempty_addresses m :
  extractPeerIDs m ≠ [] → length (default [] m) ≠ 0.
Proof. by destruct m as [[|a l]|]. Qed.

(** ** Peer identifiers *)

Example split_trailing_segment :
  split "/p2p/" "/ip4/127.0.0.1/tcp/30350/p2p/12D3KooWPeer"
  = ["/ip4/127.0.0.1/tcp/30350"; "12D3KooWPeer"].
Proof. reflexivity. Qed.

Example split_twice : split "/p2p/" "a/p2p/b/p2p/" = ["a"; "b"; ""].
Proof. reflexivity. Qed.

Example split_empty : split "/p2p/" "" = [""].
Proof. reflexivity. Qed.

Example extractPeerIDs_mixed :
  extractPeerIDs (Some ["/ip4/127.0.0.1/tcp/30350/p2p/12D3KooWPeer"; ""; "/dns/msp/p2p/"])
  = ["12D3KooWPeer"].
Proof. reflexivity. Qed.

Example extractPeerIDs_missing : extractPeerIDs None = [].
Proof. reflexivity. Qed.

Lemma append_nil_r s : s +:+ "" = s.
Proof.
  induction s as [|c s IH]; [done|].
  change (String c (s +:+ "") = String c s). by rewrite IH.
Qed.

Lemma append_snoc cur c s : (cur +:+ String c "") +:+ s = cur +:+ String c s.
Proof.
  induction cur as [|d cur IH]; [done|].
  change (String d ((cur +:+ String c "") +:+ s) = String d (cur +:+ String c s)).
  by rewrite IH.
Qed.

(** Without an occurrence of the separator, [split] returns the string whole. *)
Lemma split_go_absent sep s : ∀ cur,
  occurs sep s = false → split_go sep 0 cur s = [cur +:+ s].
Proof.
  induction s as [|c s IH]; intros cur Hocc.
  - cbn. by rewrite append_nil_r.
  - cbn [occurs] in Hocc. apply orb_false_iff in Hocc as [Hp Hocc].
    cbn [split_go]. rewrite Hp, (IH _ Hocc), append_snoc. done.
Qed.

Lemma split_absent sep s : occurs sep s = false → split sep s = [s].
Proof. intros Hocc. unfold split. by rewrite split_go_absent. Qed.

(** The pieces of [split], joined with the separator in between, give the
    string back: nothing is lost or invented by the cut. *)
Lemma prefix_append a : ∀ s, String.prefix a s = true → ∃ rest, s = a +:+ rest.
Proof.
  induction a as [|c a IH]; intros s Hp.
  - by exists s.
  - destruct s as [|d s]; [done|]. cbn in Hp.
    destruct (Ascii.ascii_dec c d) as [->|]; [|done].
    destruct (IH s Hp) as (rest & ->). by exists rest.
Qed.

Lemma split_go_skip sep suf : ∀ rest cur,
  split_go sep (String.length suf) cur (suf +:+ rest) = split_go sep 0 cur rest.
Proof.
  induction suf as [|c suf IH]; intros rest cur; [done|].
  change (split_go sep (String.length suf) cur (suf +:+ rest) = split_go sep 0 cur rest).
  apply IH.
Qed.

Lemma split_go_cons sep k cur s : ∃ x l, split_go sep k cur s = x :: l.
Proof.
  revert k cur. induction s as [|c s IH]; intros k cur; cbn [split_go]; [eexists _, _; reflexivity|].
  destruct k; [|apply IH].
  destruct (String.prefix sep (String c s)); [eexists _, _; reflexivity|apply IH].
Qed.

Lemma concat_cons sep x y l :
  String.concat sep (x :: y :: l) = x +:+ sep +:+ String.concat sep (y :: l).
Proof. reflexivity. Qed.

Lemma append_assoc a b c : (a +:+ b) +:+ c = a +:+ (b +:+ c).
Proof.
  induction a as [|d a IH]; [done|].
  change (String d ((a +:+ b) +:+ c) = String d (a +:+ b +:+ c)). by rewrite IH.
Qed.

Lemma split_go_join c0 sep' n : ∀ s cur,
  String.length s ≤ n →
  String.concat (String c0 sep') (split_go (String c0 sep') 0 cur s) = cur +:+ s.
Proof.
  induction n as [|n IH]; intros s cur Hlen.
  - destruct s; [|cbn in Hlen; lia]. cbn. by rewrite append_nil_r.
  - destruct s as [|c s]; [cbn; by rewrite append_nil_r|].
    cbn [split_go]. destruct (String.prefix (String c0 sep') (String c s)) eqn:Hp.
    + apply prefix_append in Hp as (rest & Hrest).
      change (String c s = String c0 (sep' +:+ rest)) in Hrest.
      injection Hrest as -> ->.
      change (Nat.pred (String.length (String c0 sep'))) with (String.length sep').
      rewrite split_go_skip.
      destruct (split_go_cons (String c0 sep') 0 "" rest) as (x & l & Hx).
      pose proof (IH rest "") as Hrec. rewrite Hx in Hrec |- *.
      rewrite concat_cons, Hrec.
      * reflexivity.
      * cbn in Hlen.
        assert (String.length (sep' +:+ rest) = String.length sep' + String.length rest).
        { clear. induction sep' as [|d sep' IHs]; [done|].
          change (S (String.length (sep' +:+ rest)) = S (String.length sep' + String.length rest)).
          by rewrite IHs. }
        lia.
    + rewrite IH by (cbn in Hlen; lia). apply append_snoc.
Qed.

Lemma join_split c0 sep' s :
  String.concat (String c0 sep') (split (String c0 sep') s) = s.
Proof. unfold split. by rewrite (split_go_join c0 sep' (String.length s)). Qed.

(** X17. A non-empty address that has no [/p2p/] segment at all is returned as if
    it were a peer id. *)
Lemma extractPeerIDs_without_segment addr :
  occurs "/p2p/" addr = false → addr ≠ "" →
  extractPeerIDs (Some [addr]) = [addr].
Proof.
  intros Hocc Hne. unfold extractPeerIDs. cbn -[split].
  rewrite (split_absent _ _ Hocc). cbn.
  apply truthy_true in Hne. by rewrite Hne.
Qed.

(** X13. With no address reported, [uploadFile] rejects with the "missing"
    error before any transaction is issued. *)
Lemma uploadFile_multiaddresses_missing w st bucketId filePath fileName data fp info :
  fs st !! filePath = Some data →
  respond w (ncalls st) (FmGetFingerprint filePath) = Ok fp →
  respond w (S (ncalls st)) MspGetInfo = Ok info →
  multiaddresses info = None ∨ multiaddresses info = Some [] →
  ∃ st', uploadFile bucketId filePath fileName w st
         = (Raise (new_Error "MSP multiaddresses are missing"), st') ∧
         ncalls st' = ncalls st + 2.
Proof.
  intros Hfile Hfp Hinfo Hnone.
  unfold uploadFile, stat_size, getMspInfo. mstep.
  rewrite Hfile. cbn. rewrite Hfp. cbn. rewrite Hinfo. cbn.
  rewrite bool_decide_eq_true_2 by (by destruct Hnone as [-> | ->]).
  eexists; split; [reflexivity|]. cbn. lia.
Qed.

(** X14. With addresses that all yield an empty last piece, [uploadFile] rejects
    with the "no /p2p/<peerId> segment" error. *)
Lemma uploadFile_no_peer_id w st bucketId filePath fileName data fp info :
  fs st !! filePath = Some data →
  respond w (ncalls st) (FmGetFingerprint filePath) = Ok fp →
  respond w (S (ncalls st)) MspGetInfo = Ok info →
  length (default [] (multiaddresses info)) ≠ 0 →
  extractPeerIDs (multiaddresses info) = [] →
  ∃ st', uploadFile bucketId filePath fileName w st
         = (Raise (new_Error "MSP multiaddresses had no /p2p/<peerId> segment"), st') ∧
         ncalls st' = ncalls st + 2.
Proof.
  intros Hfile Hfp Hinfo Hlen Hpeers.
  unfold uploadFile, stat_size, getMspInfo. mstep.
  rewrite Hfile. cbn. rewrite Hfp. cbn. rewrite Hinfo. cbn.
  rewrite (bool_decide_eq_false_2 _ Hlen), Hpeers. cbn.
  eexists; split; [reflexivity|]. cbn. lia.
Qed.

(** * The backend session *)

(** C10 as stated does not hold.  In the first world the sign-in and
    [getProfile] both succeed: the [getProfile] request, sent by
    [authenticateUser] before it completes, already carries the credentials.
    In the second [getProfile] is rejected: [authenticateUser] fails, and the
    provider returns credentials afterwards.  In the third the sign-in
    resolves with an empty token: [authenticateUser] succeeds and the provider
    still returns nothing. *)
Lemma C10_credentials_before_completion :
  let creds := mkCredentials "tok-1" "0xA11CE" in
  (sessionProvider w_mismatch st0 = None ∧
   trace (authenticateUser w_mismatch st0).2
     = [ACall None (MspSIWE "localhost" "http://localhost");
        ACall (Some creds) MspGetProfile]) ∧
  ((authenticateUser w_profile_fails st0).1 = Raise http_500 ∧
   sessionProvider w_profile_fails (authenticateUser w_profile_fails st0).2 = Some creds) ∧
  ((authenticateUser w_empty_token st0).1 = Ok (mkUserInfo "0xA11CE") ∧
   sessionProvider w_empty_token (authenticateUser w_empty_token st0).2 = None).
Proof. cbv zeta. split_and!; by vm_compute. Qed.

(** C10, as the code has it.  The provider returns nothing while no token is
    held.  [authenticateUser] stores the token as soon as the SIWE sign-in
    resolves, before it asks for the profile: from then on, when the token is
    not empty, the provider returns it paired with the configured address;
    the [getProfile] request of [authenticateUser] itself already carries it,
    and it stays whether that request resolves or rejects.  When the sign-in
    rejects the token is unchanged.  No other operation of the script writes
    the token; [uploadFile] does so only through [authenticateUser]. *)
Theorem C10_token_set_when_sign_in_resolves w st :
  let siwe := MspSIWE "localhost" "http://localhost" in
  let r := authenticateUser w st in
  (sessionToken st = None → sessionProvider w st = None) ∧
  (∀ sess, respond w (ncalls st) siwe = Ok sess → token sess ≠ "" →
     let creds := mkCredentials (token sess) (address w) in
     sessionProvider w r.2 = Some creds ∧
     trace r.2 = trace st ++ [ACall (sessionProvider w st) siwe; ACall (Some creds) MspGetProfile] ∧
     r.1 = respond w (S (ncalls st)) MspGetProfile) ∧
  (∀ e, respond w (ncalls st) siwe = Raise e →
     r.1 = Raise e ∧ sessionToken r.2 = sessionToken st) ∧
  (stable sessionToken getMspInfo ∧ stable sessionToken getMspHealth ∧
   stable sessionToken getValueProps ∧
   (∀ k, stable sessionToken (waitForMSPConfirmOnChain k)) ∧
   (∀ b k, stable sessionToken (waitForBackendFileReady b k)) ∧
   (∀ k p, stable sessionToken (downloadFile k p)) ∧
   (∀ p1 p2, stable sessionToken (verifyDownload p1 p2))).
Proof.
  cbv zeta. split_and!.
  - intros Hnone. unfold sessionProvider. by rewrite Hnone.
  - intros sess Hsiwe Htok. apply truthy_true in Htok.
    unfold authenticateUser, set_sessionToken. mstep. rewrite Hsiwe. cbn.
    destruct (respond w (S (ncalls st)) MspGetProfile) as [prof|e]; cbn;
      unfold sessionProvider; cbn; rewrite Htok;
      (split_and!; [done|by rewrite <- app_assoc|done]).
  - intros e Hsiwe. unfold authenticateUser. mstep. by rewrite Hsiwe.
  - apply stable_getMspInfo; auto with stable.
  - apply stable_getMspHealth; auto with stable.
  - apply stable_getValueProps; auto with stable.
  - intros k. apply stable_waitForMSPConfirmOnChain; auto with stable.
  - intros b k. apply stable_waitForBackendFileReady; auto with stable.
  - intros k p. apply stable_downloadFile; auto with stable.
  - intros p1 p2. apply stable_verifyDownload; auto with stable.
Qed.

Lemma C10_sign_in_witness :
  sessionProvider w_profile_fails (authenticateUser w_profile_fails st0).2
  = Some (mkCredentials "tok-1" "0xA11CE").
Proof.
  destruct (C10_token_set_when_sign_in_resolves w_profile_fails st0) as (_ & Hset & _).
  destruct (Hset (mkSession "tok-1")) as (Hcreds & _); [reflexivity|discriminate|].
  exact Hcreds.
Defined.

(** * The statements at concrete environments *)

Lemma C3_revoked_witness :
  ∃ st', waitForBackendFileReady "0xb1" "0xfeed" w_revoked st0 = (Raise revoked_error, st') ∧
         ncalls st' = 3.
Proof.
  destruct (C3_terminal_status_aborts w_revoked st0 "0xb1" "0xfeed" 2 revoked_info)
    as (e & st' & Hrun & Hrev & _ & _ & _ & _ & _ & _ & Hext).
  - lia.
  - intros [|[|j]] Hj; [reflexivity|reflexivity|lia].
  - reflexivity.
  - left. reflexivity.
  - exists st'. rewrite Hrun, (Hrev eq_refl). split; [reflexivity|apply Hext].
Defined.


Lemma C5_confirmed_witness :
  (waitForMSPConfirmOnChain "0xfeed" w_chain st0).1 = Ok tt.
Proof.
  destruct (C5_msp_confirmation_wait w_chain st0 "0xfeed") as (_ & Hconfirmed & _).
  destruct (Hconfirmed 2 sr_confirmed) as (Hout & _).
  - lia.
  - intros [|[|j]] Hj; [reflexivity|reflexivity|lia].
  - reflexivity.
  - by exists "0xmsp".
  - exact Hout.
Defined.

Lemma C6_server_error_witness :
  ∃ st', waitForBackendFileReady "0xb1" "0xfeed" w_server_error st0 = (Raise http_500, st') ∧
         ncalls st' = 2.
Proof.
  destruct (C6_not_found_retried_other_errors_abort w_server_error st0 "0xb1" "0xfeed" 1 http_500)
    as (_ & Hother).
  - lia.
  - intros [|j] Hj; [reflexivity|lia].
  - reflexivity.
  - destruct Hother as (st' & Hrun & Hext); [split; discriminate|].
    exists st'. split; [exact Hrun|apply Hext].
Defined.

Lemma C7_identical_witness :
  verifyDownload "/files/datahaven.png" "/files/datahaven_downloaded.png" w_pending st_files
  = (Ok true, st_files).
Proof.
  destruct (C7_verifyDownload_iff_identical w_pending st_files
              "/files/datahaven.png" "/files/datahaven_downloaded.png" two_bytes two_bytes)
    as (b & Hrun & Hiff & _); [by vm_compute|by vm_compute|].
  rewrite Hrun. by rewrite (proj2 Hiff eq_refl).
Defined.

Lemma C9_unassigned_witness :
  ∃ st1, waitForMSPConfirmOnChain "0xfeed" w_chain st0 =
           for_upto 9 1 (confirm_attempt "0xfeed" 10 2000)
             (throw (confirm_timeout "0xfeed" 10 2000)) w_chain st1 ∧
         trace st1 = [ACall None (QueryStorageRequests "0xfeed"); ASleep 2000].
Proof.
  destruct (C9_unassigned_msp_keeps_polling w_chain st0 "0xfeed" 0 sr_unassigned)
    as (_ & st1 & Hrun & Hext).
  - lia.
  - intros j Hj. lia.
  - reflexivity.
  - reflexivity.
  - exists st1. split; [exact Hrun|apply Hext].
Defined.

(** * Further properties of the operations *)

(** ** Download *)

(** X1. When the backend answers the download with a status other than 200,
    [downloadFile] rejects with "Download failed with status: <status>" after
    that single call; no file is written. *)
Theorem downloadFile_bad_status w st fileKey path resp :
  respond w (ncalls st) (MspDownloadFile (toHex fileKey)) = Ok resp →
  dl_status resp ≠ 200%Z →
  ∃ st',
    downloadFile fileKey path w st
      = (Raise (new_Error ("Download failed with status: " +:+ pretty (dl_status resp))), st') ∧
    fs st' = fs st ∧ ncalls st' = S (ncalls st) ∧
    trace st' = trace st ++ [ACall (sessionProvider w st) (MspDownloadFile (toHex fileKey))].
Proof.
  intros Hresp Hstatus. apply Z.eqb_neq in Hstatus.
  unfold downloadFile. mstep. rewrite Hresp. cbn. rewrite Hstatus. cbn.
  eexists; split; [reflexivity|]. done.
Qed.

Lemma downloadFile_bad_status_witness :
  ∃ st', downloadFile (mkH256 "0xfeed") "/files/copy.png" (w_download 404 (Ok tt)) st_files
         = (Raise (new_Error "Download failed with status: 404"), st') ∧
         fs st' = fs st_files.
Proof.
  destruct (downloadFile_bad_status (w_download 404 (Ok tt)) st_files (mkH256 "0xfeed")
              "/files/copy.png" (mkDownloadResult 404 two_bytes (Some "image/png")))
    as (st' & Hrun & Hfs & _); [reflexivity|discriminate|].
  exists st'. split; [exact Hrun|exact Hfs].
Defined.

(** The run of [downloadFile] when the backend answers 200 and the write
    stream finishes. *)
Lemma downloadFile_finished w st fileKey path resp :
  respond w (ncalls st) (MspDownloadFile (toHex fileKey)) = Ok resp →
  dl_status resp = 200%Z →
  respond w (S (ncalls st)) (PipeToFile path (dl_stream resp)) = Ok tt →
  ∃ st',
    downloadFile fileKey path w st
      = (Ok {| df_path := path;
               df_size := Z.of_nat (length (dl_stream resp));
               df_mime := dl_contentType resp |}, st') ∧
    fs st' = <[path := dl_stream resp]> (fs st) ∧
    sessionToken st' = sessionToken st.
Proof.
  intros Hresp Hstatus Hpipe.
  unfold downloadFile, pipe_to_file, write_fs, stat_size. mstep.
  rewrite Hresp. cbn. rewrite Hstatus. cbn. rewrite Hpipe. cbn.
  rewrite lookup_insert_eq. cbn.
  eexists; split; [reflexivity|]. done.
Qed.

(** X2. When the backend answers 200 and the write stream finishes,
    [downloadFile] resolves with the destination path, the number of bytes
    streamed and the content type, and the destination file holds exactly the
    streamed bytes; every other file is untouched. *)
Theorem downloadFile_writes_stream w st fileKey path resp :
  respond w (ncalls st) (MspDownloadFile (toHex fileKey)) = Ok resp →
  dl_status resp = 200%Z →
  respond w (S (ncalls st)) (PipeToFile path (dl_stream resp)) = Ok tt →
  ∃ st',
    downloadFile fileKey path w st
      = (Ok {| df_path := path;
               df_size := Z.of_nat (length (dl_stream resp));
               df_mime := dl_contentType resp |}, st') ∧
    fs st' !! path = Some (dl_stream resp) ∧
    (∀ other, other ≠ path → fs st' !! other = fs st !! other) ∧
    sessionToken st' = sessionToken st.
Proof.
  intros Hresp Hstatus Hpipe.
  destruct (downloadFile_finished w st fileKey path resp Hresp Hstatus Hpipe)
    as (st' & Hrun & Hfs & Htok).
  exists st'. rewrite Hfs. split_and!; [done|apply lookup_insert_eq| |done].
  intros other Hother. by rewrite lookup_insert_ne.
Qed.

Lemma downloadFile_writes_stream_witness :
  ∃ st', downloadFile (mkH256 "0xfeed") "/files/copy.png" (w_download 200 (Ok tt)) st_files
         = (Ok (mkDownloadedFile "/files/copy.png" 2 (Some "image/png")), st') ∧
         fs st' !! "/files/copy.png" = Some two_bytes.
Proof.
  destruct (downloadFile_writes_stream (w_download 200 (Ok tt)) st_files (mkH256 "0xfeed")
              "/files/copy.png" (mkDownloadResult 200 two_bytes (Some "image/png")))
    as (st' & Hrun & Hfile & _); [reflexivity|reflexivity|reflexivity|].
  exists st'. split; [exact Hrun|exact Hfile].
Defined.

(** X3. A rejected download request, and an error of the write stream after
    a 200 answer, both make [downloadFile] reject with that very error. *)
Theorem downloadFile_propagates w st fileKey path e :
  (respond w (ncalls st) (MspDownloadFile (toHex fileKey)) = Raise e →
   (downloadFile fileKey path w st).1 = Raise e ∧
   ncalls (downloadFile fileKey path w st).2 = S (ncalls st)) ∧
  (∀ resp,
     respond w (ncalls st) (MspDownloadFile (toHex fileKey)) = Ok resp →
     dl_status resp = 200%Z →
     respond w (S (ncalls st)) (PipeToFile path (dl_stream resp)) = Raise e →
     (downloadFile fileKey path w st).1 = Raise e).
Proof.
  split.
  - intros Hresp. unfold downloadFile. mstep. by rewrite Hresp.
  - intros resp Hresp Hstatus Hpipe.
    unfold downloadFile, pipe_to_file. mstep.
    rewrite Hresp. cbn. rewrite Hstatus. cbn. by rewrite Hpipe.
Qed.

Lemma downloadFile_propagates_witness :
  (downloadFile (mkH256 "0xfeed") "/files/copy.png" (w_download 200 (Raise http_500)) st_files).1
  = Raise http_500.
Proof.
  destruct (downloadFile_propagates (w_download 200 (Raise http_500)) st_files
              (mkH256 "0xfeed") "/files/copy.png" http_500) as [_ Hpipe].
  apply (Hpipe (mkDownloadResult 200 two_bytes (Some "image/png"))); reflexivity.
Defined.

(** X4. Download, then verify.  After a successful [downloadFile] into
    [path], [verifyDownload] of an existing original (another path) against
    [path] resolves with [true] exactly when the original holds the bytes the
    backend streamed. *)
Theorem download_then_verify w st fileKey path original data resp :
  original ≠ path →
  fs st !! original = Some data →
  respond w (ncalls st) (MspDownloadFile (toHex fileKey)) = Ok resp →
  dl_status resp = 200%Z →
  respond w (S (ncalls st)) (PipeToFile path (dl_stream resp)) = Ok tt →
  ∃ file st1 b,
    downloadFile fileKey path w st = (Ok file, st1) ∧
    verifyDownload original path w st1 = (Ok b, st1) ∧
    (b = true ↔ data = dl_stream resp).
Proof.
  intros Hne Horig Hresp Hstatus Hpipe.
  destruct (downloadFile_finished w st fileKey path resp Hresp Hstatus Hpipe)
    as (st1 & Hrun & Hfs & _).
  assert (Ho : fs st1 !! original = Some data) by (by rewrite Hfs, lookup_insert_ne).
  assert (Hd : fs st1 !! path = Some (dl_stream resp)) by (by rewrite Hfs, lookup_insert_eq).
  eexists _, st1, (Buffer_equals data (dl_stream resp)). split; [exact Hrun|]. split.
  - unfold verifyDownload, readFile. mstep. rewrite Ho. cbn. by rewrite Hd.
  - apply Buffer_equals_true.
Qed.

Lemma download_then_verify_witness :
  ∃ file st1,
    downloadFile (mkH256 "0xfeed") "/files/copy.png" (w_download 200 (Ok tt)) st_files
      = (Ok file, st1) ∧
    verifyDownload "/files/datahaven.png" "/files/copy.png" (w_download 200 (Ok tt)) st1
      = (Ok true, st1).
Proof.
  destruct (download_then_verify (w_download 200 (Ok tt)) st_files (mkH256 "0xfeed")
              "/files/copy.png" "/files/datahaven.png" two_bytes
              (mkDownloadResult 200 two_bytes (Some "image/png")))
    as (file & st1 & b & Hrun & Hver & Hiff);
    [discriminate|by vm_compute|reflexivity|reflexivity|reflexivity|].
  exists file, st1. split; [exact Hrun|].
  rewrite Hver. by rewrite (proj2 Hiff eq_refl).
Defined.

(** X5. [verifyDownload] does not answer with a boolean when a file is
    missing: it rejects with the "no such file" error of the first path it
    cannot read, the original being read first. *)
Theorem verifyDownload_missing_file w st originalPath downloadedPath :
  (fs st !! originalPath = None →
   verifyDownload originalPath downloadedPath w st
     = (Raise (enoent "open" originalPath), st)) ∧
  (is_Some (fs st !! originalPath) → fs st !! downloadedPath = None →
   verifyDownload originalPath downloadedPath w st
     = (Raise (enoent "open" downloadedPath), st)).
Proof.
  split.
  - intros Ho. unfold verifyDownload, readFile. mstep. by rewrite Ho.
  - intros [data Ho] Hd. unfold verifyDownload, readFile. mstep.
    rewrite Ho. cbn. by rewrite Hd.
Qed.

Lemma verifyDownload_missing_file_witness :
  verifyDownload "/files/datahaven.png" "/files/nowhere.png" w_pending st_files
  = (Raise (enoent "open" "/files/nowhere.png"), st_files).
Proof.
  destruct (verifyDownload_missing_file w_pending st_files
              "/files/datahaven.png" "/files/nowhere.png") as [_ Hsecond].
  apply Hsecond; [by exists two_bytes|by vm_compute].
Defined.

(** ** Value propositions *)

(** X6. [getValueProps] rejects with "No value propositions available from
    MSP" when the backend returns no array or an empty one; otherwise it
    resolves with the id of the first proposition, whatever follows it. *)
Theorem getValueProps_first_or_error w st :
  (∀ vps, respond w (ncalls st) MspGetValuePropositions = Ok vps →
     vps = None ∨ vps = Some [] →
     (getValueProps w st).1 = Raise (new_Error "No value propositions available from MSP")) ∧
  (∀ vp others, respond w (ncalls st) MspGetValuePropositions = Ok (Some (vp :: others)) →
     (getValueProps w st).1 = Ok (vp_id vp)) ∧
  (∀ e, respond w (ncalls st) MspGetValuePropositions = Raise e →
     (getValueProps w st).1 = Raise e).
Proof.
  split_and!.
  - intros vps Hresp Hnone. unfold getValueProps. mstep. rewrite Hresp.
    by destruct Hnone as [-> | ->].
  - intros vp others Hresp. unfold getValueProps. mstep. by rewrite Hresp.
  - intros e Hresp. unfold getValueProps. mstep. by rewrite Hresp.
Qed.

Lemma getValueProps_first_or_error_witness :
  (getValueProps (w_value_props (Some [mkValueProp "0x01"; mkValueProp "0x02"])) st0).1 = Ok "0x01" ∧
  (getValueProps (w_value_props (Some [])) st0).1
    = Raise (new_Error "No value propositions available from MSP").
Proof.
  split.
  - destruct (getValueProps_first_or_error
                (w_value_props (Some [mkValueProp "0x01"; mkValueProp "0x02"])) st0)
      as (_ & Hfirst & _).
    apply (Hfirst (mkValueProp "0x01") [mkValueProp "0x02"]). reflexivity.
  - destruct (getValueProps_first_or_error (w_value_props (Some [])) st0) as (Hnone & _).
    apply (Hnone (Some [])); [reflexivity|by right].
Defined.

(** ** Upload: the ways to fail *)

(** X7. When the local file does not exist, [uploadFile] rejects on
    [statSync] before any external call is made. *)
Theorem uploadFile_missing_local_file w st bucketId filePath fileName :
  fs st !! filePath = None →
  uploadFile bucketId filePath fileName w st = (Raise (enoent "stat" filePath), st).
Proof.
  intros Hfile. unfold uploadFile, stat_size. mstep. by rewrite Hfile.
Qed.

Lemma uploadFile_missing_local_file_witness :
  uploadFile "0xb1" "/files/nowhere.png" "nowhere.png" w_mismatch st_files
  = (Raise (enoent "stat" "/files/nowhere.png"), st_files).
Proof. apply uploadFile_missing_local_file. by vm_compute. Defined.

(** ** Running an operation one awaited call at a time *)

Lemma run_bind_bind {A B C} (f : B → M C) (g : A → M B) (m : M A) w s :
  mbind f (mbind g m) w s = mbind (λ a, mbind f (g a)) m w s.
Proof. unfold mbind, M_bind. by destruct (m w s) as [[a|e] s']. Qed.

Lemma run_bind_call {X B} (f : X → M B) (r : Request X) w s :
  mbind f (call r) w s =
  match respond w (ncalls s) r with
  | Ok a => f a w (called r w s)
  | Raise e => (Raise e, called r w s)
  end.
Proof. reflexivity. Qed.

Lemma run_bind_log {B} (f : unit → M B) items w s :
  mbind f (log items) w s = f tt w (logged items s).
Proof. reflexivity. Qed.

Lemma run_bind_set_sessionToken {B} (f : unit → M B) t w s :
  mbind f (set_sessionToken t) w s = f tt w (with_token t s).
Proof. reflexivity. Qed.

Lemma run_bind_get_address {B} (f : string → M B) w s :
  mbind f get_address w s = f (address w) w s.
Proof. reflexivity. Qed.

Lemma run_bind_ret {A B} (f : A → M B) a w s : mbind f (mret a : M A) w s = f a w s.
Proof. reflexivity. Qed.

Lemma run_bind_stat_size {B} (f : Z → M B) path w s :
  mbind f (stat_size path) w s =
  match fs s !! path with
  | Some data => f (Z.of_nat (length data)) w s
  | None => (Raise (enoent "stat" path), s)
  end.
Proof. unfold mbind, M_bind, stat_size. by destruct (fs s !! path). Qed.

Lemma run_bind_createType {B} (f : unit → M B) ty value w s :
  mbind f (registry_createType ty value) w s =
  match createType w ty value with
  | Ok _ => f tt w s
  | Raise e => (Raise e, s)
  end.
Proof.
  unfold mbind, M_bind, registry_createType. by destruct (createType w ty value) as [[]|e].
Qed.

Lemma run_throw {A} e w s : @throw A e w s = (Raise e, s).
Proof. reflexivity. Qed.

Lemma run_ret {A} (a : A) w s : (mret a : M A) w s = (Ok a, s).
Proof. reflexivity. Qed.

Lemma ncalls_called {X} (r : Request X) w s : ncalls (called r w s) = S (ncalls s).
Proof. reflexivity. Qed.
Lemma ncalls_logged items s : ncalls (logged items s) = ncalls s.
Proof. reflexivity. Qed.
Lemma ncalls_with_token t s : ncalls (with_token t s) = ncalls s.
Proof. reflexivity. Qed.
Lemma fs_called {X} (r : Request X) w s : fs (called r w s) = fs s.
Proof. reflexivity. Qed.
Lemma fs_logged items s : fs (logged items s) = fs s.
Proof. reflexivity. Qed.
Lemma fs_with_token t s : fs (with_token t s) = fs s.
Proof. reflexivity. Qed.
Lemma token_called {X} (r : Request X) w s : sessionToken (called r w s) = sessionToken s.
Proof. reflexivity. Qed.
Lemma token_logged items s : sessionToken (logged items s) = sessionToken s.
Proof. reflexivity. Qed.
Lemma token_with_token t s : sessionToken (with_token t s) = Some t.
Proof. reflexivity. Qed.
Lemma console_called {X} (r : Request X) w s : console (called r w s) = console s.
Proof. reflexivity. Qed.
Lemma console_logged items s : console (logged items s) = console s ++ [items].
Proof. reflexivity. Qed.
Lemma console_with_token t s : console (with_token t s) = console s.
Proof. reflexivity. Qed.

Ltac state_simpl :=
  repeat first
    [ rewrite ncalls_called | rewrite ncalls_logged | rewrite ncalls_with_token
    | rewrite fs_called | rewrite fs_logged | rewrite fs_with_token
    | rewrite token_called | rewrite token_logged | rewrite token_with_token ].

(** Steps of the run at the head of the goal: [run_quiet] passes over what
    cannot fail, [run_call H] over an external call answered as [H] says. *)
Ltac run_quiet :=
  repeat (first
    [ rewrite run_bind_bind
    | rewrite run_bind_log
    | rewrite run_bind_set_sessionToken
    | rewrite run_bind_get_address
    | rewrite run_bind_ret ];
    cbv beta zeta);
  state_simpl.

Ltac run_call H :=
  run_quiet; rewrite run_bind_call; state_simpl; rewrite H; cbv beta iota zeta.

(** [run_decode H] passes over a [createType] that ends as [H] says. *)
Ltac run_decode H :=
  run_quiet; rewrite run_bind_createType, H; cbv beta iota zeta.

Ltac run_end :=
  run_quiet; rewrite ?run_throw, ?run_ret.

(** An external call in a run that is known to resolve: the call resolved. *)
Ltac run_case H :=
  run_quiet; rewrite run_bind_call; state_simpl;
  match goal with
  | |- match respond ?w ?n ?r with _ => _ end = _ → _ =>
      destruct (respond w n r) eqn:H; cbv beta iota zeta; [|by intros [=]]
  end.

(** A [createType] in a run that is known to resolve: it returned. *)
Ltac run_case_decode H :=
  run_quiet; rewrite run_bind_createType;
  match goal with
  | |- match createType ?w ?ty ?v with _ => _ end = _ → _ =>
      destruct (createType w ty v) as [[]|] eqn:H; cbv beta iota zeta; [|by intros [=]]
  end.

Ltac run_dead := rewrite ?run_throw; by intros [=].

Section UploadFailures.
Context (w : World) (st : State) (bucketId filePath fileName : string).
Context (data : list byte) (fp : H256) (info : InfoResponse).
Context (Hfile : fs st !! filePath = Some data).
Context (Hfp : respond w (ncalls st) (FmGetFingerprint filePath) = Ok fp).
Context (Hinfo : respond w (1 + ncalls st) MspGetInfo = Ok info).
Context (Hpeers : extractPeerIDs (multiaddresses info) ≠ []).

Local Abbreviation issue :=
  (IssueStorageRequest bucketId fileName (toHex fp) (Z.of_nat (length data))
     (mspId info) (extractPeerIDs (multiaddresses info)) Custom 1).

Local Ltac to_issue :=
  unfold uploadFile, getMspInfo; cbn in Hinfo; cbv zeta;
  rewrite run_bind_stat_size, Hfile; cbv beta iota;
  run_call Hfp; run_call Hinfo; run_quiet;
  rewrite (bool_decide_eq_false_2 _ (extractPeerIDs_nonempty_addresses _ Hpeers));
  rewrite (bool_decide_eq_false_2 (length _ = 0)) by (by destruct (extractPeerIDs _));
  cbv beta iota.

(** X8. When [issueStorageRequest] resolves with no hash ([undefined] or an
    empty string), [uploadFile] rejects with "issueStorageRequest() did not
    return a transaction hash" and does not wait for a receipt. *)
Theorem uploadFile_no_transaction_hash tx :
  respond w (2 + ncalls st) issue = Ok tx →
  tx = None ∨ tx = Some "" →
  ∃ st', uploadFile bucketId filePath fileName w st
         = (Raise (new_Error "issueStorageRequest() did not return a transaction hash"), st') ∧
         ncalls st' = 3 + ncalls st ∧ sessionToken st' = sessionToken st.
Proof.
  intros Hissue Htx. cbn in Hissue. to_issue.
  run_call Hissue. run_quiet.
  destruct Htx as [-> | ->]; cbv beta iota delta [truthy negb String.eqb];
    rewrite run_throw; (eexists; split; [reflexivity|]); state_simpl; done.
Qed.

(** X9. When the receipt of the transaction has a status other than
    ["success"], [uploadFile] rejects with "Storage request failed: <hash>"
    and neither derives the file key nor reads the chain. *)
Theorem uploadFile_transaction_failed tx rc :
  respond w (2 + ncalls st) issue = Ok (Some tx) →
  tx ≠ "" →
  respond w (3 + ncalls st) (WaitForTransactionReceipt tx) = Ok rc →
  receipt_status rc ≠ "success" →
  ∃ st', uploadFile bucketId filePath fileName w st
         = (Raise (new_Error ("Storage request failed: " +:+ tx)), st') ∧
         ncalls st' = 4 + ncalls st ∧ sessionToken st' = sessionToken st.
Proof.
  intros Hissue Htx Hrc Hstatus. cbn in Hissue, Hrc.
  apply truthy_true in Htx. apply String.eqb_neq in Hstatus.
  to_issue. run_call Hissue. run_quiet. rewrite Htx. cbv beta iota delta [negb].
  run_call Hrc. rewrite Hstatus. cbv beta iota delta [negb]. rewrite run_throw.
  eexists; split; [reflexivity|]. state_simpl. done.
Qed.

(** X10. When everything up to the upload succeeds (the account address and
    the bucket id are decoded by [createType]) but the upload receipt has a
    status other than ["upload_successful"], [uploadFile] rejects with
    "File upload to MSP failed"; the session token obtained on the way stays
    stored. *)
Theorem uploadFile_upload_failed tx rc key record sess prof blob receipt :
  respond w (2 + ncalls st) issue = Ok (Some tx) →
  tx ≠ "" →
  respond w (3 + ncalls st) (WaitForTransactionReceipt tx) = Ok rc →
  receipt_status rc = "success" →
  createType w "AccountId20" (address w) = Ok tt →
  createType w "H256" bucketId = Ok tt →
  respond w (4 + ncalls st) (FmComputeFileKey (address w) bucketId fileName) = Ok key →
  respond w (5 + ncalls st) (QueryStorageRequests (toHex key)) = Ok (Some record) →
  respond w (6 + ncalls st) (MspSIWE "localhost" "http://localhost") = Ok sess →
  respond w (7 + ncalls st) MspGetProfile = Ok prof →
  respond w (8 + ncalls st) (FmGetFileBlob filePath) = Ok blob →
  respond w (9 + ncalls st) (MspUploadFile bucketId (toHex key) blob (address w) fileName)
    = Ok receipt →
  upload_status receipt ≠ "upload_successful" →
  ∃ st', uploadFile bucketId filePath fileName w st
         = (Raise (new_Error "File upload to MSP failed"), st') ∧
         ncalls st' = 10 + ncalls st ∧ sessionToken st' = Some (token sess).
Proof.
  intros Hissue Htx Hrc Hsuccess Hacc Hbucket Hkey Hq Hsiwe Hprof Hblob Hup Hbad.
  cbn in Hissue, Hrc, Hkey, Hq, Hsiwe, Hprof, Hblob, Hup.
  apply truthy_true in Htx. apply String.eqb_neq in Hbad.
  to_issue. run_call Hissue. run_quiet. rewrite Htx. cbv beta iota delta [negb].
  run_call Hrc. rewrite Hsuccess, String.eqb_refl. cbv beta iota delta [negb].
  run_decode Hacc. run_decode Hbucket. run_call Hkey. run_call Hq. unfold authenticateUser. cbv zeta.
  run_call Hsiwe. run_call Hprof. run_call Hblob. run_call Hup. run_quiet.
  rewrite Hbad. cbv beta iota delta [negb]. rewrite run_throw.
  eexists; split; [reflexivity|]. state_simpl. done.
Qed.

(** X11. Authentication inside [uploadFile]: once the account address and
    the bucket id are decoded by [createType] and the storage request is read
    back from the chain, a rejected sign-in or a rejected [getProfile] makes
    [uploadFile] reject with that error, after the storage request is already
    on chain and before any byte is uploaded. *)
Theorem uploadFile_authentication_failed tx rc key record e :
  respond w (2 + ncalls st) issue = Ok (Some tx) →
  tx ≠ "" →
  respond w (3 + ncalls st) (WaitForTransactionReceipt tx) = Ok rc →
  receipt_status rc = "success" →
  createType w "AccountId20" (address w) = Ok tt →
  createType w "H256" bucketId = Ok tt →
  respond w (4 + ncalls st) (FmComputeFileKey (address w) bucketId fileName) = Ok key →
  respond w (5 + ncalls st) (QueryStorageRequests (toHex key)) = Ok (Some record) →
  (respond w (6 + ncalls st) (MspSIWE "localhost" "http://localhost") = Raise e →
   ∃ st', uploadFile bucketId filePath fileName w st = (Raise e, st') ∧
          ncalls st' = 7 + ncalls st ∧ sessionToken st' = sessionToken st) ∧
  (∀ sess,
     respond w (6 + ncalls st) (MspSIWE "localhost" "http://localhost") = Ok sess →
     respond w (7 + ncalls st) MspGetProfile = Raise e →
     ∃ st', uploadFile bucketId filePath fileName w st = (Raise e, st') ∧
            ncalls st' = 8 + ncalls st ∧ sessionToken st' = Some (token sess)).
Proof.
  intros Hissue Htx Hrc Hsuccess Hacc Hbucket Hkey Hq.
  cbn in Hissue, Hrc, Hkey, Hq. apply truthy_true in Htx. split.
  - intros Hsiwe. cbn in Hsiwe.
    to_issue. run_call Hissue. run_quiet. rewrite Htx. cbv beta iota delta [negb].
    run_call Hrc. rewrite Hsuccess, String.eqb_refl. cbv beta iota delta [negb].
    run_decode Hacc. run_decode Hbucket.
    run_call Hkey. run_call Hq. unfold authenticateUser. cbv zeta.
    run_call Hsiwe.
    eexists; split; [reflexivity|]. state_simpl. done.
  - intros sess Hsiwe Hprof. cbn in Hsiwe, Hprof.
    to_issue. run_call Hissue. run_quiet. rewrite Htx. cbv beta iota delta [negb].
    run_call Hrc. rewrite Hsuccess, String.eqb_refl. cbv beta iota delta [negb].
    run_decode Hacc. run_decode Hbucket.
    run_call Hkey. run_call Hq. unfold authenticateUser. cbv zeta.
    run_call Hsiwe. run_call Hprof.
    eexists; split; [reflexivity|]. state_simpl. done.
Qed.

(** X25. Between the confirmed transaction and the derivation of the file
    key, [uploadFile] decodes the account address as an [AccountId20] and
    then the bucket id as an [H256].  When [createType] throws on either,
    [uploadFile] rejects with what it threw: four calls were made, the
    storage request is already on chain, the file key is not derived, the
    chain is not read back and nothing is signed or uploaded. *)
Theorem uploadFile_undecodable_id tx rc e :
  respond w (2 + ncalls st) issue = Ok (Some tx) →
  tx ≠ "" →
  respond w (3 + ncalls st) (WaitForTransactionReceipt tx) = Ok rc →
  receipt_status rc = "success" →
  createType w "AccountId20" (address w) = Raise e ∨
  (createType w "AccountId20" (address w) = Ok tt ∧
   createType w "H256" bucketId = Raise e) →
  ∃ st', uploadFile bucketId filePath fileName w st = (Raise e, st') ∧
         ncalls st' = 4 + ncalls st ∧ sessionToken st' = sessionToken st ∧
         last (trace st') = Some (ACall None (WaitForTransactionReceipt tx)).
Proof.
  intros Hissue Htx Hrc Hsuccess Hbad. cbn in Hissue, Hrc.
  apply truthy_true in Htx.
  to_issue. run_call Hissue. run_quiet. rewrite Htx. cbv beta iota delta [negb].
  run_call Hrc. rewrite Hsuccess, String.eqb_refl. cbv beta iota delta [negb].
  destruct Hbad as [Hacc | [Hacc Hbucket]].
  - run_decode Hacc.
    eexists; split; [reflexivity|]. state_simpl. split_and!; try done.
    cbn [trace called count_call push_action via_mspClient]. by rewrite last_snoc.
  - run_decode Hacc. run_decode Hbucket.
    eexists; split; [reflexivity|]. state_simpl. split_and!; try done.
    cbn [trace called count_call push_action via_mspClient]. by rewrite last_snoc.
Qed.
End UploadFailures.

Lemma uploadFile_no_transaction_hash_witness :
  ∃ st', uploadFile "0xb1" "/files/datahaven.png" "datahaven.png"
           (w_upload_tx None "success" "upload_successful") st_files
         = (Raise (new_Error "issueStorageRequest() did not return a transaction hash"), st') ∧
         ncalls st' = 3.
Proof.
  destruct (uploadFile_no_transaction_hash (w_upload_tx None "success" "upload_successful")
              st_files "0xb1" "/files/datahaven.png" "datahaven.png" two_bytes
              (mkH256 "0xf1") (mkInfo "0xmsp" good_addrs)) with (tx := @None string)
    as (st' & Hrun & Hn & _);
    [by vm_compute|reflexivity|reflexivity|by vm_compute|reflexivity|by left|].
  exists st'. split; [exact Hrun|exact Hn].
Defined.

Lemma uploadFile_transaction_failed_witness :
  ∃ st', uploadFile "0xb1" "/files/datahaven.png" "datahaven.png"
           (w_upload_tx (Some "0x7a") "reverted" "upload_successful") st_files
         = (Raise (new_Error "Storage request failed: 0x7a"), st') ∧
         ncalls st' = 4.
Proof.
  destruct (uploadFile_transaction_failed
              (w_upload_tx (Some "0x7a") "reverted" "upload_successful")
              st_files "0xb1" "/files/datahaven.png" "datahaven.png" two_bytes
              (mkH256 "0xf1") (mkInfo "0xmsp" good_addrs)) with (tx := "0x7a")
              (rc := mkTxReceipt "reverted")
    as (st' & Hrun & Hn & _);
    [by vm_compute|reflexivity|reflexivity|by vm_compute|reflexivity|discriminate
    |reflexivity|discriminate|].
  exists st'. split; [exact Hrun|exact Hn].
Defined.

Lemma uploadFile_upload_failed_witness :
  ∃ st', uploadFile e2e_bucket "/files/datahaven.png" "datahaven.png"
           w_e2e_upload_failed st_files
         = (Raise (new_Error "File upload to MSP failed"), st') ∧
         sessionToken st' = Some "tok-1".
Proof.
  destruct (uploadFile_upload_failed w_e2e_upload_failed
              st_files e2e_bucket "/files/datahaven.png" "datahaven.png" two_bytes
              (mkH256 e2e_fingerprint) (mkInfo e2e_msp good_addrs)) with (tx := e2e_tx)
              (rc := mkTxReceipt "success") (key := mkH256 e2e_file_key)
              (record := e2e_record) (sess := mkSession "tok-1")
              (prof := e2e_profile) (blob := two_bytes)
              (receipt := mkUploadReceipt "failed")
    as (st' & Hrun & _ & Htok);
    [by vm_compute|reflexivity|reflexivity|by vm_compute|reflexivity|discriminate
    |reflexivity|reflexivity|reflexivity|reflexivity|reflexivity|reflexivity
    |reflexivity|reflexivity|reflexivity|reflexivity|discriminate|].
  exists st'. split; [exact Hrun|exact Htok].
Defined.

Lemma uploadFile_authentication_failed_witness :
  ∃ st', uploadFile e2e_bucket "/files/datahaven.png" "datahaven.png"
           w_e2e_profile_fails st_files
         = (Raise http_500, st') ∧
         sessionToken st' = Some "tok-1".
Proof.
  destruct (uploadFile_authentication_failed w_e2e_profile_fails
              st_files e2e_bucket "/files/datahaven.png" "datahaven.png" two_bytes
              (mkH256 e2e_fingerprint) (mkInfo e2e_msp good_addrs)) with (tx := e2e_tx)
              (rc := mkTxReceipt "success") (key := mkH256 e2e_file_key)
              (record := e2e_record) (e := http_500)
    as (_ & Hprofile);
    [by vm_compute|reflexivity|reflexivity|by vm_compute|reflexivity|discriminate
    |reflexivity|reflexivity|reflexivity|reflexivity|reflexivity|reflexivity|].
  destruct (Hprofile (mkSession "tok-1")) as (st' & Hrun & _ & Htok);
    [reflexivity|reflexivity|].
  exists st'. split; [exact Hrun|exact Htok].
Defined.

(** The bucket id ["0xb1"] is one byte long: it is not an [H256]. *)
Lemma uploadFile_undecodable_id_witness :
  ∃ e st', uploadFile "0xb1" "/files/datahaven.png" "datahaven.png" w_e2e_ok st_files
           = (Raise e, st') ∧
           ncalls st' = 4 ∧ sessionToken st' = None.
Proof.
  destruct (uploadFile_undecodable_id w_e2e_ok
              st_files "0xb1" "/files/datahaven.png" "datahaven.png" two_bytes
              (mkH256 e2e_fingerprint) (mkInfo e2e_msp good_addrs)) with (tx := e2e_tx)
              (rc := mkTxReceipt "success")
              (e := new_Error "createType(H256):: cannot decode 0xb1")
    as (st' & Hrun & Hn & Htok & _);
    [by vm_compute|reflexivity|reflexivity|by vm_compute|reflexivity|discriminate
    |reflexivity|reflexivity|right; split; reflexivity|].
  eexists _, st'. split; [exact Hrun|]. split; [exact Hn|exact Htok].
Defined.

Lemma uploadFile_multiaddresses_missing_witness :
  ∃ st', uploadFile "0xb1" "/files/datahaven.png" "datahaven.png"
           (w_upload (Some []) (Some sr_unassigned) "tok-1" (Ok (mkUserInfo "0xA11CE"))) st_files
         = (Raise (new_Error "MSP multiaddresses are missing"), st') ∧
         ncalls st' = 2.
Proof.
  apply (uploadFile_multiaddresses_missing _ st_files "0xb1" "/files/datahaven.png"
           "datahaven.png" two_bytes (mkH256 "0xf1") (mkInfo "0xmsp" (Some [])));
    [by vm_compute|reflexivity|reflexivity|by right].
Defined.

Lemma uploadFile_no_peer_id_witness :
  ∃ st', uploadFile "0xb1" "/files/datahaven.png" "datahaven.png"
           (w_upload (Some ["/dns/msp.example/p2p/"; ""]) (Some sr_unassigned) "tok-1"
              (Ok (mkUserInfo "0xA11CE"))) st_files
         = (Raise (new_Error "MSP multiaddresses had no /p2p/<peerId> segment"), st') ∧
         ncalls st' = 2.
Proof.
  apply (uploadFile_no_peer_id _ st_files "0xb1" "/files/datahaven.png"
           "datahaven.png" two_bytes (mkH256 "0xf1")
           (mkInfo "0xmsp" (Some ["/dns/msp.example/p2p/"; ""])));
    [by vm_compute|reflexivity|reflexivity|by vm_compute|reflexivity].
Defined.

(** X12. [uploadFile] resolves only after all ten calls succeeded: the file
    exists, the transaction has status ["success"], [createType] decoded the
    account address and the bucket id, the storage request was found on chain
    under the key the SDK derived, the sign-in resolved (its token is the one
    now stored) and the MSP answered ["upload_successful"].  The key and the
    receipt it returns are the ones it was given. *)
Theorem uploadFile_resolves_only_if w st bucketId filePath fileName key receipt st' :
  uploadFile bucketId filePath fileName w st = (Ok (key, receipt), st') →
  is_Some (fs st !! filePath) ∧
  (∃ tx, tx ≠ "" ∧
         respond w (3 + ncalls st) (WaitForTransactionReceipt tx) = Ok (mkTxReceipt "success")) ∧
  createType w "AccountId20" (address w) = Ok tt ∧
  createType w "H256" bucketId = Ok tt ∧
  respond w (4 + ncalls st) (FmComputeFileKey (address w) bucketId fileName) = Ok key ∧
  (∃ record, respond w (5 + ncalls st) (QueryStorageRequests (toHex key)) = Ok (Some record)) ∧
  (∃ sess, respond w (6 + ncalls st) (MspSIWE "localhost" "http://localhost") = Ok sess ∧
           sessionToken st' = Some (token sess)) ∧
  (∃ blob, respond w (9 + ncalls st)
             (MspUploadFile bucketId (toHex key) blob (address w) fileName) = Ok receipt) ∧
  upload_status receipt = "upload_successful" ∧
  ncalls st' = 10 + ncalls st ∧ fs st' = fs st.
Proof.
  unfold uploadFile, getMspInfo, authenticateUser. cbv zeta.
  rewrite run_bind_stat_size.
  destruct (fs st !! filePath) as [data|] eqn:Hfile; [|by intros [=]].
  run_case Hfp. run_case Hinfo. run_quiet.
  destruct (bool_decide (length (default [] _) = 0)); [run_dead|].
  destruct (bool_decide _); [run_dead|].
  run_case Hissue. run_quiet.
  match goal with |- context [match ?o with Some _ => _ | None => _ end] =>
    destruct o as [tx|]; [|run_dead] end.
  destruct (truthy tx) eqn:Htx; cbv beta iota delta [negb]; [|run_dead].
  run_case Hrc.
  match goal with |- context [String.eqb (receipt_status ?rc) "success"] =>
    destruct (String.eqb (receipt_status rc) "success") eqn:Hsuccess;
    cbv beta iota delta [negb]; [|run_dead];
    destruct rc as [status]; cbn in Hsuccess; apply String.eqb_eq in Hsuccess; subst status
  end.
  run_case_decode Hacc. run_case_decode Hbucket.
  run_case Hkey. run_case Hq.
  match goal with |- context [match ?o with Some _ => _ | None => _ end] =>
    destruct o as [record|]; [|run_dead] end.
  run_case Hsiwe. run_case Hprof. run_case Hblob. run_case Hup. run_quiet.
  match goal with |- context [String.eqb (upload_status ?u) "upload_successful"] =>
    destruct (String.eqb (upload_status u) "upload_successful") eqn:Hok;
    cbv beta iota delta [negb]; [|run_dead]; apply String.eqb_eq in Hok
  end.
  rewrite run_ret. intros [= -> -> <-]. state_simpl.
  split_and!; try done.
  - exists tx. split; [by apply truthy_true|exact Hrc].
  - by eexists.
  - by eexists.
  - by eexists.
Qed.

Lemma uploadFile_resolves_only_if_witness :
  createType w_e2e_ok "H256" e2e_bucket = Ok tt ∧
  respond w_e2e_ok 4 (FmComputeFileKey e2e_address e2e_bucket "datahaven.png")
    = Ok (mkH256 e2e_file_key) ∧
  ncalls (uploadFile e2e_bucket "/files/datahaven.png" "datahaven.png" w_e2e_ok st_files).2 = 10.
Proof.
  destruct (uploadFile_resolves_only_if w_e2e_ok st_files e2e_bucket "/files/datahaven.png"
              "datahaven.png" (mkH256 e2e_file_key) (mkUploadReceipt "upload_successful")
              (uploadFile e2e_bucket "/files/datahaven.png" "datahaven.png" w_e2e_ok st_files).2)
    as (_ & _ & _ & Hbucket & Hkey & _ & _ & _ & _ & Hn & _); [by vm_compute|].
  split; [exact Hbucket|]. split; [exact Hkey|exact Hn].
Defined.

(** ** The read-back of the storage request, and a bare address *)

(** C1, as the code has it.  After a confirmed storage-request transaction,
    [uploadFile] decodes the account address and the bucket id and re-reads
    the chain under the derived file key.  If no record is found it rejects
    with "Storage request not found on chain".  If a record is found, its
    bucket id and fingerprint are compared with the submitted ones and the
    two booleans are logged; whatever they are, the function goes on to
    authenticate and upload, and resolves when these succeed. *)
Theorem C1_reread_absent_fails_mismatch_logged
    w st bucketId filePath fileName (data : list byte) fp info tx rc key :
  let n := ncalls st in
  let peers := extractPeerIDs (multiaddresses info) in
  fs st !! filePath = Some data →
  respond w n (FmGetFingerprint filePath) = Ok fp →
  respond w (n + 1) MspGetInfo = Ok info →
  peers ≠ [] →
  respond w (n + 2) (IssueStorageRequest bucketId fileName (toHex fp)
                       (Z.of_nat (length data)) (mspId info) peers Custom 1) = Ok (Some tx) →
  tx ≠ "" →
  respond w (n + 3) (WaitForTransactionReceipt tx) = Ok rc →
  receipt_status rc = "success" →
  createType w "AccountId20" (address w) = Ok tt →
  createType w "H256" bucketId = Ok tt →
  respond w (n + 4) (FmComputeFileKey (address w) bucketId fileName) = Ok key →
  (respond w (n + 5) (QueryStorageRequests (toHex key)) = Ok None →
   ∃ st', uploadFile bucketId filePath fileName w st
          = (Raise (new_Error "Storage request not found on chain"), st') ∧
          ncalls st' = n + 6) ∧
  (∀ record sess prof blob receipt,
     respond w (n + 5) (QueryStorageRequests (toHex key)) = Ok (Some record) →
     respond w (n + 6) (MspSIWE "localhost" "http://localhost") = Ok sess →
     respond w (n + 7) MspGetProfile = Ok prof →
     respond w (n + 8) (FmGetFileBlob filePath) = Ok blob →
     respond w (n + 9) (MspUploadFile bucketId (toHex key) blob (address w) fileName)
       = Ok receipt →
     upload_status receipt = "upload_successful" →
     ∃ st', uploadFile bucketId filePath fileName w st = (Ok (key, receipt), st') ∧
            ncalls st' = n + 10 ∧
            [LStr "Storage request bucketId matches initial bucketId:";
             LBool (String.eqb (sr_bucketId record) bucketId)] ∈ console st' ∧
            [LStr "Storage request fingerprint matches initial fingerprint";
             LBool (String.eqb (sr_fingerprint record) (H256_toString fp))] ∈ console st').
Proof.
  intros n peers Hfile Hfp Hinfo Hpeers Hissue Htx Hrc Hsuccess Hacc Hbucket Hkey.
  subst n peers.
  apply truthy_true in Htx.
  replace (ncalls st + 1) with (S (ncalls st)) in * by lia.
  replace (ncalls st + 2) with (S (S (ncalls st))) in * by lia.
  replace (ncalls st + 3) with (S (S (S (ncalls st)))) in * by lia.
  replace (ncalls st + 4) with (S (S (S (S (ncalls st))))) in * by lia.
  replace (ncalls st + 5) with (S (S (S (S (S (ncalls st)))))) in * by lia.
  split.
  - intros Hq.
    unfold uploadFile, getMspInfo. cbv zeta.
    rewrite run_bind_stat_size, Hfile. cbv beta iota.
    run_call Hfp. run_call Hinfo. run_quiet.
    rewrite (bool_decide_eq_false_2 _ (extractPeerIDs_nonempty_addresses _ Hpeers)).
    rewrite (bool_decide_eq_false_2 (length _ = 0)) by (by destruct (extractPeerIDs _)).
    cbv beta iota.
    run_call Hissue. run_quiet. rewrite Htx. cbv beta iota delta [negb].
    run_call Hrc. rewrite Hsuccess, String.eqb_refl. cbv beta iota delta [negb].
    run_decode Hacc. run_decode Hbucket. run_call Hkey. run_call Hq.
    rewrite run_throw. eexists; split; [reflexivity|]. state_simpl. lia.
  - intros record sess prof blob receipt Hq Hsiwe Hprof Hblob Hup Hok.
    replace (ncalls st + 6) with (S (S (S (S (S (S (ncalls st))))))) in * by lia.
    replace (ncalls st + 7) with (S (S (S (S (S (S (S (ncalls st)))))))) in * by lia.
    replace (ncalls st + 8) with (S (S (S (S (S (S (S (S (ncalls st))))))))) in * by lia.
    replace (ncalls st + 9) with (S (S (S (S (S (S (S (S (S (ncalls st)))))))))) in * by lia.
    unfold uploadFile, getMspInfo. cbv zeta.
    rewrite run_bind_stat_size, Hfile. cbv beta iota.
    run_call Hfp. run_call Hinfo. run_quiet.
    rewrite (bool_decide_eq_false_2 _ (extractPeerIDs_nonempty_addresses _ Hpeers)).
    rewrite (bool_decide_eq_false_2 (length _ = 0)) by (by destruct (extractPeerIDs _)).
    cbv beta iota.
    run_call Hissue. run_quiet. rewrite Htx. cbv beta iota delta [negb].
    run_call Hrc. rewrite Hsuccess, String.eqb_refl. cbv beta iota delta [negb].
    run_decode Hacc. run_decode Hbucket. run_call Hkey. run_call Hq.
    unfold authenticateUser. cbv zeta.
    run_call Hsiwe. run_call Hprof. run_call Hblob. run_call Hup. run_quiet.
    rewrite Hok, String.eqb_refl. cbv beta iota delta [negb]. rewrite run_ret.
    eexists; split; [reflexivity|]. state_simpl. split; [lia|].
    repeat first [rewrite console_logged | rewrite console_called | rewrite console_with_token].
    rewrite !elem_of_app, !list_elem_of_singleton. split; tauto.
Qed.

(** C1 as stated does not hold: here the account address and the bucket id
    are well-formed, the record read back from the chain differs from the
    request in its bucket id and in its fingerprint, and [uploadFile] resolves
    all the same. *)
Lemma C1_mismatch_is_not_an_error :
  let r := uploadFile e2e_bucket "/files/datahaven.png" "datahaven.png" w_e2e_mismatch st_files in
  is_hex_bytes 20 (address w_e2e_mismatch) = true ∧ is_hex_bytes 32 e2e_bucket = true ∧
  respond w_e2e_mismatch 5 (QueryStorageRequests e2e_file_key) = Ok (Some other_record) ∧
  trace r.2 !! 5 = Some (ACall None (QueryStorageRequests e2e_file_key)) ∧
  sr_bucketId other_record ≠ e2e_bucket ∧ sr_fingerprint other_record ≠ e2e_fingerprint ∧
  r.1 = Ok (mkH256 e2e_file_key, mkUploadReceipt "upload_successful").
Proof. cbv zeta. split_and!; try discriminate; by vm_compute. Qed.

Lemma C1_reread_witness :
  ∃ st',
    uploadFile e2e_bucket "/files/datahaven.png" "datahaven.png" w_e2e_mismatch st_files
      = (Ok (mkH256 e2e_file_key, mkUploadReceipt "upload_successful"), st') ∧
    [LStr "Storage request bucketId matches initial bucketId:"; LBool false] ∈ console st'.
Proof.
  destruct (C1_reread_absent_fails_mismatch_logged w_e2e_mismatch st_files
              e2e_bucket "/files/datahaven.png" "datahaven.png" two_bytes
              (mkH256 e2e_fingerprint) (mkInfo e2e_msp good_addrs) e2e_tx
              (mkTxReceipt "success") (mkH256 e2e_file_key)) as [_ Hpresent];
    [by vm_compute| reflexivity | reflexivity | by vm_compute | reflexivity
    | discriminate | reflexivity | reflexivity | reflexivity | reflexivity | reflexivity |].
  destruct (Hpresent other_record (mkSession "tok-1")
              e2e_profile two_bytes (mkUploadReceipt "upload_successful"))
    as (st' & Heq & _ & Hlog & _); try reflexivity.
  exists st'. split; [exact Heq|exact Hlog].
Defined.

(** C2, at the failing input.  The MSP reports the single address
    [/ip4/127.0.0.1/tcp/30350], which carries no [/p2p/<peerId>] segment.
    [extractPeerIDs] returns the whole address as a peer id, so [uploadFile]
    does not reject with the "no peer ID" error: it issues the storage request
    with that address in the peer list and, the account address and the
    bucket id being well-formed, goes on and resolves. *)
Theorem C2_address_without_segment_taken_as_peer_id :
  let r := uploadFile e2e_bucket "/files/datahaven.png" "datahaven.png" w_e2e_no_p2p st_files in
  occurs "/p2p/" "/ip4/127.0.0.1/tcp/30350" = false ∧
  extractPeerIDs (Some ["/ip4/127.0.0.1/tcp/30350"]) = ["/ip4/127.0.0.1/tcp/30350"] ∧
  respond w_e2e_no_p2p 1 MspGetInfo = Ok (mkInfo e2e_msp (Some ["/ip4/127.0.0.1/tcp/30350"])) ∧
  trace r.2 !! 2
    = Some (ACall None (IssueStorageRequest e2e_bucket "datahaven.png" e2e_fingerprint 2 e2e_msp
                          ["/ip4/127.0.0.1/tcp/30350"] Custom 1)) ∧
  is_hex_bytes 20 (address w_e2e_no_p2p) = true ∧ is_hex_bytes 32 e2e_bucket = true ∧
  r.1 = Ok (mkH256 e2e_file_key, mkUploadReceipt "upload_successful").
Proof. cbv zeta. split_and!; by vm_compute. Qed.

(** * The script on concrete environments *)

(** A run in which every collaborator cooperates: the ten steps complete in
    order and the external calls are made in the order of the script. *)
Example run_resolves :
  let r := run "/" w_e2e_ok st_files in
  r.1 = Ok tt ∧
  steps r.2 = marks workflow ∧
  calls_of (trace r.2) =
    [ACall None InitWasm;
     ACall None MspGetHealth;
     ACall None (CreateBucket "bucket-datahaven-e2e");
     ACall None (VerifyBucketCreation e2e_bucket);
     ACall None (WaitForBackendBucketReady e2e_bucket);
     ACall None (FmGetFingerprint "/files/datahaven.png");
     ACall None MspGetInfo;
     ACall None (IssueStorageRequest e2e_bucket "datahaven.png" e2e_fingerprint 2 e2e_msp
                   ["12D3KooWPeer"] Custom 1);
     ACall None (WaitForTransactionReceipt e2e_tx);
     ACall None (FmComputeFileKey e2e_address e2e_bucket "datahaven.png");
     ACall None (QueryStorageRequests e2e_file_key);
     ACall None (MspSIWE "localhost" "http://localhost");
     ACall None MspGetProfile;
     ACall None (FmGetFileBlob "/files/datahaven.png");
     ACall None (MspUploadFile e2e_bucket e2e_file_key two_bytes e2e_address "datahaven.png");
     ACall None (QueryStorageRequests e2e_file_key);
     ACall None (MspGetFileInfo e2e_bucket e2e_file_key);
     ACall None (MspDownloadFile e2e_file_key);
     ACall None (PipeToFile "/files/datahaven_downloaded.png" two_bytes);
     ACall None Disconnect].
Proof. cbv zeta. split_and!; by vm_compute. Qed.

(** A run in which the backend reports the file as rejected: the run rejects
    in the seventh step; download, verification and disconnection never
    start. *)
Example run_aborts_on_rejected_file :
  let r := run "/" w_e2e_rejected st_files in
  r.1 = Raise rejected_error ∧
  steps r.2 = marks (take 6 workflow) ++ [Started StepWaitFileReady] ∧
  last (calls_of (trace r.2)) = Some (ACall None (MspGetFileInfo e2e_bucket e2e_file_key)).
Proof. cbv zeta. split_and!; by vm_compute. Qed.

(** Identifiers that [createType] does not decode (here already the account
    address): the run rejects in the fifth step, after the storage request
    was issued and confirmed. *)
Example run_aborts_on_undecodable_ids :
  let r := run "/" (w_script "ready") st_files in
  (∃ e, r.1 = Raise e) ∧
  steps r.2 = marks (take 4 workflow) ++ [Started StepUpload] ∧
  last (calls_of (trace r.2)) = Some (ACall None (WaitForTransactionReceipt "0x7a")).
Proof. cbv zeta. split_and!; [vm_compute; by eexists|by vm_compute|by vm_compute]. Qed.

(** ** Polling: what holds for every environment *)

Lemma waitForBackendFileReady_ready_witness :
  ∃ st', waitForBackendFileReady "0xb1" "0xfeed" w_ready st0 = (Ok ready_info, st') ∧
         ncalls st' = 3.
Proof.
  destruct (waitForBackendFileReady_ready w_ready st0 "0xb1" "0xfeed" 2 ready_info)
    as (st' & Hrun & Hext).
  - lia.
  - intros [|[|j]] Hj; [reflexivity|reflexivity|lia].
  - reflexivity.
  - reflexivity.
  - exists st'. split; [exact Hrun|apply Hext].
Defined.

Section Pacing.
Context {R : Type} (body : nat → M (option R)) (timeout : JsError) (w : World).
Context (st : State) (round final : list Action).

(** Every iteration makes one call, and either falls through after the
    actions [round] or leaves the loop after the actions [final]. *)
Context (Hbody : ∀ i s, sessionToken s = sessionToken st →
  (∃ s', body i w s = (Ok None, s') ∧ extends s s' 1 round) ∨
  (∃ o s', body i w s = (o, s') ∧ o ≠ Ok None ∧ extends s s' 1 final)).

Lemma for_upto_paced n :
  let r := for_upto n 0 body (throw timeout) w st in
  ∃ i, i ≤ n ∧
    ((i = n ∧ r.1 = Raise timeout ∧ extends st r.2 n (rounds n round)) ∨
     (i < n ∧ extends st r.2 (S i) (rounds i round ++ final))).
Proof.
  cbv zeta.
  apply (for_upto_invariant body (throw timeout) w
           (λ j s, extends st s j (rounds j round))
           (λ o s, ∃ i, i ≤ n ∧
              ((i = n ∧ o = Raise timeout ∧ extends st s n (rounds n round)) ∨
               (i < n ∧ extends st s (S i) (rounds i round ++ final))))).
  - apply extends_refl.
  - intros j s Hj Hinv.
    assert (Hstop : ∀ s', extends s s' 1 final →
              ∃ i, i ≤ n ∧
                ((i = n ∧ False) ∨ (i < n ∧ extends st s' (S i) (rounds i round ++ final)))).
    { intros s' Hext. exists j. split; [lia|]. right. split; [lia|].
      replace (S j) with (j + 1) by lia. by eapply extends_trans. }
    destruct (Hbody j s) as [(s' & -> & Hext)|(o & s' & -> & Hne & Hext)]; [apply Hinv|..].
    + rewrite rounds_snoc. replace (S j) with (j + 1) by lia. by eapply extends_trans.
    + destruct o as [[v|]|e]; [| done |].
      * destruct (Hstop s' Hext) as (i & Hi & [[_ []]|Hr]). exists i. split; [done|by right].
      * destruct (Hstop s' Hext) as (i & Hi & [[_ []]|Hr]). exists i. split; [done|by right].
  - intros s Hinv. cbn. exists n. split; [done|]. left. done.
Qed.
End Pacing.

(** X19. Whatever the backend answers, [waitForBackendFileReady] interacts
    in rounds of one query followed by one delay of 5000 ms: [i] such rounds,
    then either one last query, on which it returns or fails at once
    ([i < 144]), or, after 144 rounds, the timeout, which thus comes after
    the delay that follows the 144th query.  It never sends two queries
    without the delay in between and never waits more than 144 times. *)
Theorem waitForBackendFileReady_paced w st bucketId fileKey :
  let q := ACall (sessionProvider w st) (MspGetFileInfo bucketId fileKey) in
  let r := waitForBackendFileReady bucketId fileKey w st in
  ∃ i, i ≤ 144 ∧
    ((i = 144 ∧ r.1 = Raise ready_timeout ∧ extends st r.2 144 (rounds 144 [q; ASleep 5000])) ∨
     (i < 144 ∧ extends st r.2 (S i) (rounds i [q; ASleep 5000] ++ [q]))).
Proof.
  cbv zeta. rewrite waitForBackendFileReady_unfold.
  apply (for_upto_paced (ready_attempt bucketId fileKey 144 5000) ready_timeout w st).
  intros i s Htok.
  rewrite <- (sessionProvider_token w st s Htok).
  destruct (transient (respond w (ncalls s) (MspGetFileInfo bucketId fileKey))) eqn:Ht.
  - left. by apply ready_attempt_transient.
  - right. destruct (respond w (ncalls s) (MspGetFileInfo bucketId fileKey)) as [fi|e] eqn:Ha.
    + cbn in Ht. unfold is_transient_status in Ht.
      destruct (String.eqb (fi_status fi) "ready") eqn:E1.
      { apply String.eqb_eq in E1.
        destruct (ready_attempt_ready w bucketId fileKey 144 5000 i s fi Ha E1) as (s' & Hr & He).
        by exists (Ok (Some fi)), s'. }
      destruct (ready_attempt_terminal w bucketId fileKey 144 5000 i s fi Ha)
        as (s' & He & Hrev & Hrej & Hexp).
      destruct (String.eqb (fi_status fi) "revoked") eqn:E2.
      { apply String.eqb_eq in E2. exists (Raise revoked_error), s'. by rewrite (Hrev E2). }
      destruct (String.eqb (fi_status fi) "rejected") eqn:E3.
      { apply String.eqb_eq in E3. exists (Raise rejected_error), s'. by rewrite (Hrej E3). }
      destruct (String.eqb (fi_status fi) "expired") eqn:E4; [|done].
      apply String.eqb_eq in E4. exists (Raise expired_error), s'. by rewrite (Hexp E4).
    + cbn in Ht.
      destruct (ready_attempt_other_error w bucketId fileKey 144 5000 i s e Ha Ht) as (s' & Hr & He).
      by exists (Raise e), s'.
Qed.

Lemma confirm_attempt_rejected w fileKey maxAttempts delayMs i st e :
  respond w (ncalls st) (QueryStorageRequests fileKey) = Raise e →
  ∃ st', confirm_attempt fileKey maxAttempts delayMs i w st = (Raise e, st') ∧
         extends st st' 1 [ACall None (QueryStorageRequests fileKey)].
Proof.
  intros Ha. unfold confirm_attempt. mstep. rewrite Ha. cbn.
  eexists; split; [reflexivity|]. solve_extends.
Qed.

(** X20. Whatever the chain answers, [waitForMSPConfirmOnChain] interacts in
    rounds of one query followed by one delay of 2000 ms: [i] such rounds,
    then either one last query ([i < 10]) or, after 10 rounds, the timeout. *)
Theorem waitForMSPConfirmOnChain_paced w st fileKey :
  let q := ACall None (QueryStorageRequests fileKey) in
  let r := waitForMSPConfirmOnChain fileKey w st in
  ∃ i, i ≤ 10 ∧
    ((i = 10 ∧ r.1 = Raise (confirm_timeout fileKey 10 2000) ∧
      extends st r.2 10 (rounds 10 [q; ASleep 2000])) ∨
     (i < 10 ∧ extends st r.2 (S i) (rounds i [q; ASleep 2000] ++ [q]))).
Proof.
  cbv zeta. rewrite waitForMSPConfirmOnChain_unfold.
  apply (for_upto_paced (confirm_attempt fileKey 10 2000) (confirm_timeout fileKey 10 2000) w st).
  intros i s Htok.
  destruct (respond w (ncalls s) (QueryStorageRequests fileKey)) as [[data|]|e] eqn:Ha.
  - destruct (mspConfirmed data) eqn:Hc.
    + right. destruct (confirm_attempt_confirmed w fileKey 10 2000 i s data Ha Hc) as (s' & Hr & He).
      by exists (Ok (Some tt)), s'.
    + left. apply confirm_attempt_unconfirmed. rewrite Ha. cbn. by rewrite Hc.
  - right. destruct (confirm_attempt_gone w fileKey 10 2000 i s Ha) as (s' & Hr & He).
    by exists (Raise (gone_error fileKey)), s'.
  - right. destruct (confirm_attempt_rejected w fileKey 10 2000 i s e Ha) as (s' & Hr & He).
    by exists (Raise e), s'.
Qed.

(** X21. A chain query that is itself rejected (a node or transport error)
    ends [waitForMSPConfirmOnChain] at once with that error: it is not
    retried. *)
Theorem waitForMSPConfirmOnChain_query_rejected w st fileKey i e :
  i < 10 →
  (∀ j, j < i →
     unconfirmed (respond w (ncalls st + j) (QueryStorageRequests fileKey)) = true) →
  respond w (ncalls st + i) (QueryStorageRequests fileKey) = Raise e →
  ∃ st', waitForMSPConfirmOnChain fileKey w st = (Raise e, st') ∧
         extends st st' (S i)
           (rounds i [ACall None (QueryStorageRequests fileKey); ASleep 2000]
            ++ [ACall None (QueryStorageRequests fileKey)]).
Proof.
  intros Hi Hbefore Hans.
  rewrite (waitForMSPConfirmOnChain_split i) by done.
  destruct (confirm_loop_prefix w fileKey 10 2000 (throw (confirm_timeout fileKey 10 2000))
              i (S (9 - i)) 0 st Hbefore) as (st1 & -> & Hext1).
  assert (Hn1 : ncalls st1 = ncalls st + i) by apply Hext1.
  rewrite <- Hn1 in Hans.
  destruct (confirm_attempt_rejected w fileKey 10 2000 (0 + i) st1 e Hans) as (st2 & Hrun & Hext2).
  pose proof (extends_trans _ _ _ _ _ _ _ Hext1 Hext2) as Hext.
  replace (i + 1) with (S i) in Hext by lia.
  exists st2. split; [|done]. by apply for_upto_raise.
Qed.

Lemma waitForMSPConfirmOnChain_query_rejected_witness :
  ∃ st', waitForMSPConfirmOnChain "0xfeed" w_chain_rpc_error st0 = (Raise http_500, st') ∧
         ncalls st' = 2.
Proof.
  destruct (waitForMSPConfirmOnChain_query_rejected w_chain_rpc_error st0 "0xfeed" 1 http_500)
    as (st' & Hrun & Hext).
  - lia.
  - intros [|j] Hj; [reflexivity|lia].
  - reflexivity.
  - exists st'. split; [exact Hrun|apply Hext].
Defined.

(** ** Peer identifiers: what [extractPeerIDs] returns *)

Lemma append_assoc_cons c cur s : String c cur +:+ s = String c (cur +:+ s).
Proof. reflexivity. Qed.

Lemma occurs_starts_in sep t : occurs sep t = starts_in sep t "".
Proof.
  induction t as [|c t IH]; [done|].
  cbn [occurs starts_in]. by rewrite IH, append_nil_r.
Qed.

Lemma starts_in_snoc sep cur c s :
  starts_in sep (cur +:+ String c "") s
  = starts_in sep cur (String c s) || String.prefix sep (String c s).
Proof.
  induction cur as [|d cur IH].
  - change ("" +:+ String c "") with (String c ""). cbn [starts_in].
    change (String c "" +:+ s) with (String c s). by rewrite orb_false_r.
  - change (String d cur +:+ String c "") with (String d (cur +:+ String c "")).
    cbn [starts_in]. rewrite IH.
    change (String d (cur +:+ String c "") +:+ s) with (String d ((cur +:+ String c "") +:+ s)).
    rewrite append_snoc. change (String d cur +:+ String c s) with (String d (cur +:+ String c s)).
    by rewrite orb_assoc.
Qed.

Lemma last_cons_cons {A} (x y : A) l : last (x :: y :: l) = last (y :: l).
Proof. reflexivity. Qed.

Lemma prefix_refl_append a : ∀ r, String.prefix a (a +:+ r) = true.
Proof.
  induction a as [|c a IH]; intros r; [by destruct r|].
  change (String c a +:+ r) with (String c (a +:+ r)). cbn.
  destruct (Ascii.ascii_dec c c); [apply IH|done].
Qed.

Section LastPiece.
Context (c0 : Ascii.ascii) (sep' : string).
Local Abbreviation sep := (String c0 sep').

(** The last piece is a suffix of the string that was cut. *)
Lemma split_go_last_suffix n : ∀ s cur t,
  String.length s ≤ n →
  last (split_go sep 0 cur s) = Some t →
  ∃ pre, cur +:+ s = pre +:+ t.
Proof.
  induction n as [|n IH]; intros s cur t Hlen Hlast.
  - destruct s; [|cbn in Hlen; lia]. cbn in Hlast. injection Hlast as <-.
    exists "". by rewrite append_nil_r.
  - destruct s as [|c s].
    { cbn in Hlast. injection Hlast as <-. exists "". by rewrite append_nil_r. }
    cbn [split_go] in Hlast.
    destruct (String.prefix sep (String c s)) eqn:Hp.
    + apply prefix_append in Hp as (rest & Hrest).
      change (String c s = String c0 (sep' +:+ rest)) in Hrest.
      injection Hrest as -> ->.
      change (Nat.pred (String.length sep)) with (String.length sep') in Hlast.
      rewrite split_go_skip in Hlast.
      destruct (split_go_cons sep 0 "" rest) as (x & l & Hx).
      rewrite Hx, last_cons_cons, <- Hx in Hlast.
      destruct (IH rest "" t) as (pre & Hpre); [|done|].
      { cbn in Hlen.
        assert (String.length (sep' +:+ rest) = String.length sep' + String.length rest).
        { clear. induction sep' as [|d s IHs]; [done|].
          change (S (String.length (s +:+ rest)) = S (String.length s + String.length rest)).
          by rewrite IHs. }
        lia. }
      change ("" +:+ rest) with rest in Hpre.
      exists (cur +:+ sep +:+ pre).
      rewrite !append_assoc. change (String c0 (sep' +:+ rest)) with (sep +:+ rest).
      by rewrite Hpre.
    + destruct (IH s (cur +:+ String c "") t) as (pre & Hpre); [cbn in Hlen; lia|done|].
      exists pre. by rewrite <- Hpre, append_snoc.
Qed.

(** No occurrence of the separator is left in the last piece. *)
Lemma split_go_last_clean n : ∀ s cur t,
  String.length s ≤ n →
  starts_in sep cur s = false →
  last (split_go sep 0 cur s) = Some t →
  occurs sep t = false.
Proof.
  induction n as [|n IH]; intros s cur t Hlen Hclean Hlast.
  - destruct s; [|cbn in Hlen; lia]. cbn in Hlast. injection Hlast as <-.
    by rewrite occurs_starts_in.
  - destruct s as [|c s].
    { cbn in Hlast. injection Hlast as <-. by rewrite occurs_starts_in. }
    cbn [split_go] in Hlast.
    destruct (String.prefix sep (String c s)) eqn:Hp.
    + apply prefix_append in Hp as (rest & Hrest).
      change (String c s = String c0 (sep' +:+ rest)) in Hrest.
      injection Hrest as -> ->.
      change (Nat.pred (String.length sep)) with (String.length sep') in Hlast.
      rewrite split_go_skip in Hlast.
      destruct (split_go_cons sep 0 "" rest) as (x & l & Hx).
      rewrite Hx, last_cons_cons, <- Hx in Hlast.
      apply (IH rest "" t); [|done|done].
      cbn in Hlen.
      assert (String.length (sep' +:+ rest) = String.length sep' + String.length rest).
      { clear. induction sep' as [|d s IHs]; [done|].
        change (S (String.length (s +:+ rest)) = S (String.length s + String.length rest)).
        by rewrite IHs. }
      lia.
    + apply (IH s (cur +:+ String c "") t); [cbn in Hlen; lia| |done].
      by rewrite starts_in_snoc, Hclean, Hp.
Qed.

(** Scanning over a prefix in which no occurrence starts. *)
Lemma split_go_scan pre : ∀ cur s,
  starts_in sep pre s = false →
  split_go sep 0 cur (pre +:+ s) = split_go sep 0 (cur +:+ pre) s.
Proof.
  induction pre as [|c pre IH]; intros cur s Hclean.
  - by rewrite append_nil_r.
  - cbn [starts_in] in Hclean. apply orb_false_iff in Hclean as [Hp Hclean].
    change (String c pre +:+ s) with (String c (pre +:+ s)) in Hp |- *.
    cbn [split_go]. rewrite Hp, (IH _ _ Hclean), append_snoc. done.
Qed.

Lemma split_first_occurrence pre id :
  starts_in sep pre (sep +:+ id) = false →
  occurs sep id = false →
  split sep (pre +:+ sep +:+ id) = [pre; id].
Proof.
  intros Hpre Hid. unfold split. rewrite (split_go_scan _ _ _ Hpre).
  change ("" +:+ pre) with pre.
  change (sep +:+ id) with (String c0 (sep' +:+ id)).
  cbn [split_go].
  change (String c0 (sep' +:+ id)) with (sep +:+ id).
  rewrite prefix_refl_append.
  change (Nat.pred (String.length sep)) with (String.length sep').
  by rewrite split_go_skip, (split_go_absent _ _ _ Hid).
Qed.
End LastPiece.

Lemma extractPeerIDs_cons addr addrs :
  extractPeerIDs (Some (addr :: addrs))
  = extractPeerIDs (Some [addr]) ++ extractPeerIDs (Some addrs).
Proof.
  unfold extractPeerIDs. cbn -[split].
  by destruct (last (split "/p2p/" addr)) as [id|]; [destruct (truthy id)|].
Qed.

Lemma omap_length_le {A B} (f : A → option B) l : length (omap f l) ≤ length l.
Proof.
  induction l as [|x l IH]; [done|]. cbn. destruct (f x); cbn; lia.
Qed.

(** X15. Every peer id returned by [extractPeerIDs] is non-empty, contains no
    [/p2p/] delimiter and is the tail of one of the addresses; there are at
    most as many ids as addresses. *)
Theorem extractPeerIDs_ids m :
  length (extractPeerIDs m) ≤ length (default [] m) ∧
  ∀ id, id ∈ extractPeerIDs m →
    id ≠ "" ∧ occurs "/p2p/" id = false ∧
    ∃ addr pre, addr ∈ default [] m ∧ addr = pre +:+ id.
Proof.
  unfold extractPeerIDs. split; [apply omap_length_le|].
  intros id Hid. apply list_elem_of_omap in Hid as (addr & Haddr & Hf).
  destruct (last (split "/p2p/" addr)) as [t|] eqn:Hlast; [|done].
  destruct (truthy t) eqn:Ht; [|done]. injection Hf as ->.
  split_and!.
  - by apply truthy_true.
  - by eapply (split_go_last_clean _ _ (String.length addr) addr "" id).
  - unfold split in Hlast.
    eapply (split_go_last_suffix _ _ (String.length addr) addr "" id) in Hlast as (pre & Hpre);
      [|done].
    by exists addr, pre.
Qed.

(** X16. On addresses of the form [pre/p2p/id], with a non-empty [id] and the
    delimiter occurring neither before nor inside [id], [extractPeerIDs]
    returns exactly the ids, one per address, in the order of the
    addresses. *)
Theorem extractPeerIDs_trailing_segments addrs ids :
  Forall2 ends_with_peer_id addrs ids →
  extractPeerIDs (Some addrs) = ids.
Proof.
  induction 1 as [|addr id addrs ids (pre & -> & Hpre & Hid & Hne) _ IH]; [done|].
  rewrite extractPeerIDs_cons, IH. unfold extractPeerIDs. cbn -[split].
  erewrite (split_first_occurrence _ _ _ _ Hpre Hid). cbn.
  apply truthy_true in Hne. by rewrite Hne.
Qed.

Lemma extractPeerIDs_trailing_segments_witness :
  extractPeerIDs (Some ["/ip4/127.0.0.1/tcp/30350/p2p/12D3KooWPeer"; "/dns/msp/p2p/QmPeer"])
  = ["12D3KooWPeer"; "QmPeer"].
Proof.
  apply extractPeerIDs_trailing_segments.
  repeat constructor.
  - exists "/ip4/127.0.0.1/tcp/30350". split_and!; [reflexivity|reflexivity|reflexivity|discriminate].
  - exists "/dns/msp". split_and!; [reflexivity|reflexivity|reflexivity|discriminate].
Defined.

Lemma extractPeerIDs_without_segment_witness :
  extractPeerIDs (Some ["/ip4/127.0.0.1/tcp/30350"]) = ["/ip4/127.0.0.1/tcp/30350"].
Proof. apply extractPeerIDs_without_segment; [reflexivity|discriminate]. Defined.

(** ** What an operation adds to the trace *)
Section Emits.
Context (P : Action → Prop).

Lemma emits_silent {A} (m : M A) : stable trace m → emits P m.
Proof. intros Hm w st. exists []. by rewrite Hm, app_nil_r. Qed.

Lemma emits_bind {A B} (m : M A) (f : A → M B) :
  emits P m → (∀ a, emits P (f a)) → emits P (mbind f m).
Proof.
  intros Hm Hf w st. unfold mbind, M_bind.
  destruct (Hm w st) as (acts1 & Ht1 & Hp1).
  destruct (m w st) as [[a|e] st1]; cbn in *; [|by exists acts1].
  destruct (Hf a w st1) as (acts2 & Ht2 & Hp2).
  exists (acts1 ++ acts2). rewrite Ht2, Ht1, app_assoc. split; [done|by apply Forall_app].
Qed.

Lemma emits_try_catch {A} (body : M A) handler :
  emits P body → (∀ e, emits P (handler e)) → emits P (try_catch body handler).
Proof.
  intros Hb Hh w st. unfold try_catch.
  destruct (Hb w st) as (acts1 & Ht1 & Hp1).
  destruct (body w st) as [[a|e] st1]; cbn in *; [by exists acts1|].
  destruct (Hh e w st1) as (acts2 & Ht2 & Hp2).
  exists (acts1 ++ acts2). rewrite Ht2, Ht1, app_assoc. split; [done|by apply Forall_app].
Qed.

Lemma emits_for_upto {R} body (after : M R) n :
  (∀ i, emits P (body i)) → emits P after → ∀ i, emits P (for_upto n i body after).
Proof.
  intros Hb Ha. induction n as [|n IH]; intros i; cbn; [done|].
  apply emits_bind; [done|]. intros [v|]; [|apply IH].
  apply emits_silent. by intros w st.
Qed.

Lemma emits_call {X} (r : Request X) :
  (∀ creds, P (ACall creds r)) → emits P (call r).
Proof. intros Hr w st. eexists [_]. split; [reflexivity|]. by constructor. Qed.

Lemma emits_sleep ms : P (ASleep ms) → emits P (sleep ms).
Proof. intros Hs w st. eexists [_]. split; [reflexivity|]. by constructor. Qed.
End Emits.

Lemma trace_log items : stable trace (log items).
Proof. by intros w st. Qed.
Lemma trace_mark m : stable trace (mark m).
Proof. by intros w st. Qed.
Lemma trace_set_sessionToken t : stable trace (set_sessionToken t).
Proof. by intros w st. Qed.
Lemma trace_write_fs path data : stable trace (write_fs path data).
Proof. by intros w st. Qed.

#[local] Hint Resolve trace_log trace_mark trace_set_sessionToken trace_write_fs : stable.

(** Syntax-directed proof of [emits P m]; [leaf] proves [P] of a call or a
    delay. *)
Ltac emits_step leaf :=
  lazymatch goal with
  | |- emits _ (mbind _ _) => apply emits_bind; [|intros ?]
  | |- emits _ (try_catch _ _) => apply emits_try_catch; [|intros ?]
  | |- emits _ (for_upto _ _ _ _) => apply emits_for_upto; [intros ?|]
  | |- emits _ (call _) => apply emits_call; intros ?; leaf
  | |- emits _ (sleep _) => apply emits_sleep; leaf
  | |- emits _ (if ?b then _ else _) => destruct b
  | |- emits _ (match ?x with _ => _ end) => destruct x
  | |- emits _ _ => apply emits_silent; solve [auto with stable]
  end.
Ltac solve_emits leaf :=
  unfold step, uploadFile, downloadFile, pipe_to_file, verifyDownload,
    waitForMSPConfirmOnChain, confirm_attempt, waitForBackendFileReady, ready_attempt,
    getMspHealth, getMspInfo, authenticateUser;
  cbv zeta; repeat emits_step leaf.

(** ** Local files *)

Lemma fs_call {X} (r : Request X) : stable fs (call r).
Proof. by intros w st. Qed.
Lemma fs_log items : stable fs (log items).
Proof. by intros w st. Qed.
Lemma fs_sleep ms : stable fs (sleep ms).
Proof. by intros w st. Qed.
Lemma fs_set_sessionToken t : stable fs (set_sessionToken t).
Proof. by intros w st. Qed.

(** X22. The script writes local files in one place only: [downloadFile]
    writes its destination path and nothing else, and [uploadFile],
    [authenticateUser], the two waits and [verifyDownload] leave every file
    as it is, however they end. *)
Theorem only_downloadFile_writes_files :
  (∀ k path w st other,
     other ≠ path → fs (downloadFile k path w st).2 !! other = fs st !! other) ∧
  (∀ b p f, stable fs (uploadFile b p f)) ∧
  stable fs authenticateUser ∧
  (∀ k, stable fs (waitForMSPConfirmOnChain k)) ∧
  (∀ b k, stable fs (waitForBackendFileReady b k)) ∧
  (∀ p1 p2, stable fs (verifyDownload p1 p2)).
Proof.
  pose proof (@fs_call) as Hcall. pose proof fs_log as Hlog.
  pose proof fs_sleep as Hsleep. pose proof fs_set_sessionToken as Htok.
  split_and!.
  - intros k path w st other Hother.
    unfold downloadFile, pipe_to_file, write_fs, stat_size. mstep.
    repeat case_match; simplify_eq; cbn; try done.
    all: by rewrite lookup_insert_ne.
  - intros b p f. by apply stable_uploadFile.
  - by apply stable_authenticateUser.
  - intros k. by apply stable_waitForMSPConfirmOnChain.
  - intros b k. by apply stable_waitForBackendFileReady.
  - intros p1 p2. by apply stable_verifyDownload.
Qed.

(** ** The orchestrator: closing the connection, and the bucket in use *)

Lemma grown_refl P st : grown P st st.
Proof. exists []. by rewrite app_nil_r. Qed.

Lemma wp_grown P st0 {A} (m : M A) w s (Q : Outcome A → State → Prop) :
  emits P m → grown P st0 s →
  (∀ o s', grown P st0 s' → Q o s') →
  wp m w s Q.
Proof.
  intros Hm (acts & Ht & Hp) HQ. apply HQ.
  destruct (Hm w s) as (acts' & Ht' & Hp').
  exists (acts ++ acts'). rewrite Ht', Ht, app_assoc. split; [done|by apply Forall_app].
Qed.

(** One stage of [run]: an operation that emits [P], then the rest; when the
    operation rejects, [onraise] closes the goal. *)
Ltac run_stage P st leaf onraise :=
  cbv zeta; apply wp_bind;
  let G' := fresh "G" in
  match goal with
  | G : grown P st _ |- _ =>
      apply (wp_grown P st); [solve_emits leaf|exact G|];
      clear G; intros [?|?] ? G'; [|onraise]
  end.

(** ** The orchestrator, one awaited operation after the other *)

Lemma run_bind_ok {A B} (f : A → M B) (m : M A) w s a s' :
  m w s = (Ok a, s') → mbind f m w s = f a w s'.
Proof. intros H. unfold mbind, M_bind. by rewrite H. Qed.

Lemma run_bind_raise {A B} (f : A → M B) (m : M A) w s e s' :
  m w s = (Raise e, s') → mbind f m w s = (Raise e, s').
Proof. intros H. unfold mbind, M_bind. by rewrite H. Qed.

Lemma run_step_ok {A} stp (m : M A) w s a s' :
  m w (marked (Started stp) s) = (Ok a, s') →
  step stp m w s = (Ok a, marked (Completed stp) s').
Proof.
  intros H. unfold step, mbind, M_bind, mark, mret, M_ret, marked in *.
  cbv beta iota. by rewrite H.
Qed.

Lemma run_step_raise {A} stp (m : M A) w s e s' :
  m w (marked (Started stp) s) = (Raise e, s') →
  step stp m w s = (Raise e, s').
Proof.
  intros H. unfold step, mbind, M_bind, mark, mret, M_ret, marked in *.
  cbv beta iota. by rewrite H.
Qed.

Lemma run_bind_step_ok {A B} (f : A → M B) stp (m : M A) w s a s' :
  m w (marked (Started stp) s) = (Ok a, s') →
  mbind f (step stp m) w s = f a w (marked (Completed stp) s').
Proof. intros H. apply run_bind_ok. by apply run_step_ok. Qed.

Lemma run_bind_step_raise {A B} (f : A → M B) stp (m : M A) w s e s' :
  m w (marked (Started stp) s) = (Raise e, s') →
  mbind f (step stp m) w s = (Raise e, s').
Proof. intros H. apply run_bind_raise. by apply run_step_raise. Qed.

Lemma hands_over_refl s : hands_over s s [].
Proof. unfold hands_over. by rewrite app_nil_r. Qed.

Lemma hands_over_logged s s' ms items :
  hands_over s s' ms → hands_over s (logged items s') ms.
Proof. done. Qed.

Lemma hands_over_marked s s' ms m :
  hands_over s s' ms → hands_over s (marked m s') (ms ++ [m]).
Proof.
  intros (? & ? & ? & ? & Hs). unfold hands_over. cbn.
  rewrite Hs, <- app_assoc. done.
Qed.

(** What is left of the script, and the state it runs from. *)
Ltac script_state Hr :=
  lazymatch type of Hr with
  | _ = mbind _ (step ?stp _) _ ?s => constr:(marked (Started stp) s)
  | _ = step ?stp _ _ ?s => constr:(marked (Started stp) s)
  | _ = mbind _ _ _ ?s => constr:(s)
  end.

Ltac script_hands_over :=
  repeat first
    [ apply hands_over_refl
    | apply hands_over_logged
    | apply (hands_over_marked _ _ [_]); apply (hands_over_marked _ _ [])
    | apply (hands_over_marked _ _ []) ].

(** One stage of the script whose rest is [Hr]: the stage is exhibited, the
    rejection closes the goal with [Hr], and the script goes on from the
    state the operation left. *)
Ltac script_stage Hr :=
  let s := script_state Hr in
  cbv beta zeta; exists s; split; [script_hands_over|];
  let Heq := fresh "Heq" in
  split;
  [ intros ? ? Heq;
    first [ rewrite (run_bind_step_ok _ _ _ _ _ _ _ Heq) in Hr
          | rewrite (run_bind_ok _ _ _ _ _ _ Heq) in Hr ];
    repeat (rewrite run_bind_log in Hr); cbv beta zeta in Hr;
    clear Heq
  | intros ? ? Heq;
    first [ rewrite (run_bind_step_raise _ _ _ _ _ _ _ Heq) in Hr
          | rewrite (run_bind_raise _ _ _ _ _ _ Heq) in Hr ];
    exact Hr ].

(** The script as a chain of stages, each run from the state the previous
    one left. *)
Lemma run_stages w st moduleDir :
  let r := run moduleDir w st in
  let aborted := λ e s', r = (Raise e, s') in
  let fileName := "datahaven.png" in
  let filePath := module_path moduleDir ("files/" +:+ fileName) in
  let downloadedFilePath := module_path moduleDir "files/datahaven_downloaded.png" in
  stage w st [] (call InitWasm) aborted (λ _ s0,
  stage w s0 [Started StepHealthCheck] getMspHealth aborted (λ _ s1,
  stage w s1 [Completed StepHealthCheck; Started StepCreateBucket]
    (call (CreateBucket "bucket-datahaven-e2e")) aborted (λ created s2,
  let bucketId := created.1 in
  stage w s2 [Completed StepCreateBucket; Started StepVerifyBucket]
    (call (VerifyBucketCreation bucketId)) aborted (λ _ s3,
  stage w s3 [Completed StepVerifyBucket; Started StepWaitBucket]
    (call (WaitForBackendBucketReady bucketId)) aborted (λ _ s4,
  stage w s4 [Completed StepWaitBucket; Started StepUpload]
    (uploadFile bucketId filePath fileName) aborted (λ uploaded s5,
  let fileKey := uploaded.1 in
  stage w s5 [Completed StepUpload; Started StepWaitMspConfirm]
    (waitForMSPConfirmOnChain (toHex fileKey)) aborted (λ _ s6,
  stage w s6 [Completed StepWaitMspConfirm; Started StepWaitFileReady]
    (waitForBackendFileReady bucketId (toHex fileKey)) aborted (λ _ s7,
  stage w s7 [Completed StepWaitFileReady; Started StepDownload]
    (downloadFile fileKey downloadedFilePath) aborted (λ _ s8,
  stage w s8 [Completed StepDownload; Started StepVerify]
    (verifyDownload filePath downloadedFilePath) aborted (λ _ s9,
  stage w s9 [Completed StepVerify; Started StepDisconnect]
    (call Disconnect) aborted (λ _ s10,
  r.1 = Ok tt ∧ hands_over s10 r.2 [Completed StepDisconnect]))))))))))).
Proof.
  intros r aborted fileName filePath downloadedFilePath.
  assert (Hr : r = run moduleDir w st) by reflexivity.
  clearbody r. subst aborted fileName filePath downloadedFilePath.
  unfold run in Hr. cbv zeta in Hr.
  do 10 script_stage Hr.
  (* the disconnection *)
  let s := script_state Hr in
  cbv beta zeta; exists s; split; [script_hands_over|].
  split; intros x sfin Heq.
  - rewrite (run_step_ok _ _ _ _ _ _ Heq) in Hr. rewrite Hr. split; [by destruct x|].
    apply (hands_over_marked _ _ []), hands_over_refl.
  - by rewrite (run_step_raise _ _ _ _ _ _ Heq) in Hr.
Qed.

(** C8.  [run] awaits, in this order and one at a time, the WASM
    initialisation and then the ten steps: health check, bucket creation,
    verification of the bucket on chain, wait for the backend to know the
    bucket, upload, wait for the MSP confirmation on chain, wait for the file
    in the backend, download, verification of the download, disconnection.

    Each operation is run from the state its predecessor left (in between the
    script only logs and leaves its marks), with the bucket id and the file
    key its predecessors resolved with.  When an operation rejects, the run
    rejects with the same error in the very state that operation left:
    nothing later is executed.  When all resolve, the run resolves and has
    done nothing after the disconnection. *)
Theorem C8_run_awaits_steps_in_order w st moduleDir :
  let r := run moduleDir w st in
  let aborted := λ e s', r = (Raise e, s') in
  let fileName := "datahaven.png" in
  let filePath := module_path moduleDir ("files/" +:+ fileName) in
  let downloadedFilePath := module_path moduleDir "files/datahaven_downloaded.png" in
  stage w st [] (call InitWasm) aborted (λ _ s0,
  stage w s0 [Started StepHealthCheck] getMspHealth aborted (λ _ s1,
  stage w s1 [Completed StepHealthCheck; Started StepCreateBucket]
    (call (CreateBucket "bucket-datahaven-e2e")) aborted (λ created s2,
  let bucketId := created.1 in
  stage w s2 [Completed StepCreateBucket; Started StepVerifyBucket]
    (call (VerifyBucketCreation bucketId)) aborted (λ _ s3,
  stage w s3 [Completed StepVerifyBucket; Started StepWaitBucket]
    (call (WaitForBackendBucketReady bucketId)) aborted (λ _ s4,
  stage w s4 [Completed StepWaitBucket; Started StepUpload]
    (uploadFile bucketId filePath fileName) aborted (λ uploaded s5,
  let fileKey := uploaded.1 in
  stage w s5 [Completed StepUpload; Started StepWaitMspConfirm]
    (waitForMSPConfirmOnChain (toHex fileKey)) aborted (λ _ s6,
  stage w s6 [Completed StepWaitMspConfirm; Started StepWaitFileReady]
    (waitForBackendFileReady bucketId (toHex fileKey)) aborted (λ _ s7,
  stage w s7 [Completed StepWaitFileReady; Started StepDownload]
    (downloadFile fileKey downloadedFilePath) aborted (λ _ s8,
  stage w s8 [Completed StepDownload; Started StepVerify]
    (verifyDownload filePath downloadedFilePath) aborted (λ _ s9,
  stage w s9 [Completed StepVerify; Started StepDisconnect]
    (call Disconnect) aborted (λ _ s10,
  r.1 = Ok tt ∧ hands_over s10 r.2 [Completed StepDisconnect]))))))))))).
Proof. exact (run_stages w st moduleDir). Qed.

(** ** Closing the connection *)

Lemma grown_after P st {A} (m : M A) w s o s' :
  emits P m → grown P st s → m w s = (o, s') → grown P st s'.
Proof.
  intros Hm (acts & Ht & Hp) Heq. destruct (Hm w s) as (acts' & Ht' & Hp').
  rewrite Heq in Ht'. cbn in Ht'.
  exists (acts ++ acts'). rewrite Ht', Ht, app_assoc. split; [done|by apply Forall_app].
Qed.

Lemma grown_hands_over P st s s' ms :
  grown P st s → hands_over s s' ms → grown P st s'.
Proof. intros (acts & Ht & Hp) (_ & _ & _ & Ht' & _). exists acts. by rewrite Ht'. Qed.

Lemma disconnected_after st w s o s' :
  grown not_disconnect st s → call Disconnect w s = (o, s') → disconnected_last st s'.
Proof.
  intros (acts & Ht & Hp) [= _ <-]. exists acts. cbn. rewrite Ht, app_assoc. done.
Qed.

(** One stage of [run_stages] in which the operation requests no
    disconnection. *)
Ltac open_stage H G :=
  let s := fresh "s" in
  let Hh := fresh "Hh" in
  let Hok := fresh "Hok" in
  let Hraise := fresh "Hraise" in
  let Gs := fresh "G" in
  let Heq := fresh "Heq" in
  destruct H as (s & Hh & Hok & Hraise);
  exists s; split; [exact Hh|];
  pose proof (grown_hands_over _ _ _ _ _ G Hh) as Gs; clear G Hh;
  split;
  [ intros ? ? Heq; pose proof (Hok _ _ Heq) as H; cbv beta zeta in H;
    lazymatch type of Heq with
    | _ = (_, ?s') =>
        lazymatch type of Gs with
        | grown _ ?st0 _ =>
            assert (G : grown not_disconnect st0 s')
              by (refine (grown_after _ _ _ _ _ _ _ _ Gs Heq); solve_emits ltac:(exact I))
        end
    end;
    clear Hok Hraise Gs Heq; cbv beta zeta
  | intros ? ? Heq; split; [exact (Hraise _ _ Heq)|];
    refine (grown_after _ _ _ _ _ _ _ _ Gs Heq); solve_emits ltac:(exact I) ].

(** X23.  [run] requests the disconnection only when the WASM
    initialisation and the nine steps before it all resolved, and then as its
    last action.  When one of these operations rejects, the run rejects with
    the same error in the state that operation left, and the trace of the
    run holds no disconnection: the connection is left open.  When they all
    resolve, the disconnection is requested once, after everything else, and
    nothing follows it, whether it resolves or rejects. *)
Theorem run_closes_connection_last w st moduleDir :
  let r := run moduleDir w st in
  let left_open := λ e s', r = (Raise e, s') ∧ grown not_disconnect st s' in
  let fileName := "datahaven.png" in
  let filePath := module_path moduleDir ("files/" +:+ fileName) in
  let downloadedFilePath := module_path moduleDir "files/datahaven_downloaded.png" in
  stage w st [] (call InitWasm) left_open (λ _ s0,
  stage w s0 [Started StepHealthCheck] getMspHealth left_open (λ _ s1,
  stage w s1 [Completed StepHealthCheck; Started StepCreateBucket]
    (call (CreateBucket "bucket-datahaven-e2e")) left_open (λ created s2,
  let bucketId := created.1 in
  stage w s2 [Completed StepCreateBucket; Started StepVerifyBucket]
    (call (VerifyBucketCreation bucketId)) left_open (λ _ s3,
  stage w s3 [Completed StepVerifyBucket; Started StepWaitBucket]
    (call (WaitForBackendBucketReady bucketId)) left_open (λ _ s4,
  stage w s4 [Completed StepWaitBucket; Started StepUpload]
    (uploadFile bucketId filePath fileName) left_open (λ uploaded s5,
  let fileKey := uploaded.1 in
  stage w s5 [Completed StepUpload; Started StepWaitMspConfirm]
    (waitForMSPConfirmOnChain (toHex fileKey)) left_open (λ _ s6,
  stage w s6 [Completed StepWaitMspConfirm; Started StepWaitFileReady]
    (waitForBackendFileReady bucketId (toHex fileKey)) left_open (λ _ s7,
  stage w s7 [Completed StepWaitFileReady; Started StepDownload]
    (downloadFile fileKey downloadedFilePath) left_open (λ _ s8,
  stage w s8 [Completed StepDownload; Started StepVerify]
    (verifyDownload filePath downloadedFilePath) left_open (λ _ s9,
  stage w s9 [Completed StepVerify; Started StepDisconnect] (call Disconnect)
    (λ e s', r = (Raise e, s') ∧ disconnected_last st s')
    (λ _ s10, r.1 = Ok tt ∧ disconnected_last st r.2))))))))))).
Proof.
  intros r left_open fileName filePath downloadedFilePath.
  pose proof (run_stages w st moduleDir) as H. cbv zeta in H.
  fold r in H. subst left_open fileName filePath downloadedFilePath.
  pose proof (grown_refl not_disconnect st) as G.
  do 10 open_stage H G.
  destruct H as (slast & Hh & Hok & Hraise).
  exists slast; split; [exact Hh|].
  pose proof (grown_hands_over _ _ _ _ _ G Hh) as Gs.
  split.
  - intros x sfin Heq. destruct (Hok _ _ Heq) as (Hres & _ & _ & _ & Ht & _).
    split; [exact Hres|].
    destruct (disconnected_after _ _ _ _ _ Gs Heq) as (before & Hb & Hp).
    exists before. by rewrite Ht.
  - intros e sfin Heq. split; [exact (Hraise _ _ Heq)|].
    exact (disconnected_after _ _ _ _ _ Gs Heq).
Qed.

Lemma ncalls_marked m s : ncalls (marked m s) = ncalls s.
Proof. reflexivity. Qed.

Lemma wp_call_case {X B} (f : X → M B) (r : Request X) w s (Q : Outcome B → State → Prop) :
  match respond w (ncalls s) r with
  | Ok a => wp (f a) w (called r w s) Q
  | Raise e => Q (Raise e) (called r w s)
  end →
  wp (mbind f (call r)) w s Q.
Proof. unfold wp. rewrite run_bind_call. by destruct (respond w (ncalls s) r). Qed.

Lemma wp_log_step {B} (f : unit → M B) items w s (Q : Outcome B → State → Prop) :
  wp (f tt) w (logged items s) Q → wp (mbind f (log items)) w s Q.
Proof. done. Qed.

Lemma wp_step_call_case {X B} (f : X → M B) stp (r : Request X) w s
    (Q : Outcome B → State → Prop) :
  match respond w (ncalls s) r with
  | Ok a => wp (f a) w (marked (Completed stp) (called r w (marked (Started stp) s))) Q
  | Raise e => Q (Raise e) (called r w (marked (Started stp) s))
  end →
  wp (mbind f (step stp (call r))) w s Q.
Proof.
  unfold wp, step, mbind, M_bind, mark, call, mret, M_ret. cbn.
  by destruct (respond w (ncalls s) r).
Qed.

Lemma wp_step_health_case {B} (f : HealthStatus → M B) stp w s
    (Q : Outcome B → State → Prop) :
  match respond w (ncalls s) MspGetHealth with
  | Ok h => wp (f h) w
              (marked (Completed stp)
                 (logged [LStr "MSP Health: "; LObj "mspHealth"]
                    (called MspGetHealth w (marked (Started stp) s)))) Q
  | Raise e => Q (Raise e) (called MspGetHealth w (marked (Started stp) s))
  end →
  wp (mbind f (step stp getMspHealth)) w s Q.
Proof.
  unfold wp, step, getMspHealth, mbind, M_bind, mark, call, log, mret, M_ret. cbn.
  by destruct (respond w (ncalls s) MspGetHealth).
Qed.

Lemma grown_called P st {X} (r : Request X) w s :
  (∀ creds, P (ACall creds r)) → grown P st s → grown P st (called r w s).
Proof.
  intros Hr (acts & Ht & Hp). eexists (acts ++ [_]). cbn. rewrite Ht, app_assoc.
  split; [done|]. apply Forall_app. split; [done|]. by constructor.
Qed.

Lemma grown_logged P st items s : grown P st s → grown P st (logged items s).
Proof. done. Qed.

Lemma grown_marked P st m s : grown P st s → grown P st (marked m s).
Proof. done. Qed.

(** X24. The bucket id that [createBucket] returns is the one every later
    call of [run] names: the on-chain verification, the wait for the backend,
    the storage request, the derivation of the file key, the upload and the
    polling of the file status all name the bucket of the third call of the
    run, whatever the other answers are. *)
Theorem run_uses_the_created_bucket w st moduleDir b rc :
  respond w (2 + ncalls st) (CreateBucket "bucket-datahaven-e2e") = Ok (b, rc) →
  ∃ acts, trace (run moduleDir w st).2 = trace st ++ acts ∧ Forall (uses_bucket b) acts.
Proof.
  intros Hcreate. cbn in Hcreate.
  change (wp (run moduleDir) w st (λ _ s, grown (uses_bucket b) st s)).
  unfold run.
  apply wp_call_case.
  destruct (respond w (ncalls st) InitWasm) as [[]|e];
    [|by apply grown_called, grown_refl].
  apply wp_log_step, wp_step_health_case.
  repeat first [rewrite ncalls_marked | progress state_simpl].
  destruct (respond w (S (ncalls st)) MspGetHealth) as [h|e].
  2:{ apply grown_called; [done|]. by apply grown_marked, grown_logged, grown_called, grown_refl. }
  apply wp_log_step. cbv zeta. apply wp_step_call_case.
  repeat first [rewrite ncalls_marked | progress state_simpl].
  rewrite Hcreate.
  match goal with |- wp _ _ ?s3 _ =>
    assert (G : grown (uses_bucket b) st s3)
      by (repeat first [apply grown_marked | apply grown_logged
                       | apply grown_called; [done|] | apply grown_refl]);
    generalize dependent s3; (let x := fresh "s" in intros x G)
  end.
  cbn [fst].
  do 16 (run_stage (uses_bucket b) st ltac:(cbn; done) ltac:(done)).
  apply (wp_grown (uses_bucket b) st); [solve_emits ltac:(cbn; done)|done|done].
Qed.

Lemma run_uses_the_created_bucket_witness :
  ∃ acts, trace (run "/" (w_script "ready") st_files).2 = trace st_files ++ acts ∧
          Forall (uses_bucket "0xb1") acts.
Proof.
  apply (run_uses_the_created_bucket (w_script "ready") st_files "/" "0xb1"
           (mkTxReceipt "success")).
  reflexivity.
Defined.
